(** * globaldict: the country-table builder [build.py]

    A shallow embedding of the reconciliation core of [build.py]
    (the Reindexer, the Blender, the Code Augmenter with its number
    splitter, and the no-IDC filter of [make_dataset]) together with the
    properties its specification states about them.

    Modelling choices, all read off the source:
    - a country record is a Python [dict] from field names to strings:
      [gmap string string]; the strings are [unicode] objects
      ([fix_entities] returns [unicode]), held as their UTF-8 encoding;
    - [unicode.upper], which the Blender applies to the names, is a table of
      the interpreter and not code of [build.py]: the Blender is modelled
      over any case mapping (the class [Str.Upper]) and its properties are
      proved for every one of them;
    - records are mutable objects shared by reference between the data
      sets, the re-indexed views and the list of patched records: they live
      in a store [heap], and the data sets hold references ([loc]);
    - a data set is a Python 2 [dict] whose iteration order matters
      ([items()], [values()], [keys()] are list snapshots): an association
      list, in iteration order, with the dict operations written out;
    - [KeyError] and [IndexError] are results; the store at the point of the
      raise is kept, as the mutations done before it are. *)

From Stdlib Require Import String Ascii ZArith List Lia Bool.
From stdpp Require Import base option list gmap strings fin_maps.

Open Scope string_scope.
Open Scope list_scope.

(** ** Exceptions *)

Inductive exn := KeyError | IndexError.

Inductive outcome (A : Type) :=
| Ret (a : A)
| Raise (e : exn).
Arguments Ret {A} a.
Arguments Raise {A} e.

(** ** Strings: the [str] methods the code calls *)

Module Str.

(** [s.upper()] on a name. The names are [unicode] objects, so this is
    [unicode.upper]: the upper-case mapping of the interpreter's Unicode
    character database, applied code point by code point. The code that
    calls it is modelled over any such mapping. *)
Class Upper := upper : string → string.

(** That mapping on the Basic Latin and Latin-1 Supplement blocks, read on
    the UTF-8 encoding: [a]-[z] and U+00E0-U+00FE without U+00F7 (the bytes
    C3 A0 - C3 BE without C3 B7) move down by 32, U+00FF goes to U+0178
    (C5 B8) and U+00B5 to U+039C (CE 9C); every other code point of the two
    blocks, U+00DF among them, is left as it is. The test tables, whose
    names are in these two blocks, are run with it. *)
Definition upper_char (c : ascii) : ascii :=
  let n := nat_of_ascii c in
  if (97 <=? n)%nat && (n <=? 122)%nat then ascii_of_nat (n - 32) else c.

Fixpoint upper_latin1 (s : string) : string :=
  match s with
  | EmptyString => EmptyString
  | String c s' =>
      match s' with
      | EmptyString => String (upper_char c) EmptyString
      | String c' s'' =>
          let n := nat_of_ascii c in
          let n' := nat_of_ascii c' in
          if (n =? 195)%nat && (160 <=? n')%nat && (n' <=? 190)%nat
             && negb (n' =? 183)%nat
          then String c (String (ascii_of_nat (n' - 32)) (upper_latin1 s''))
          else if (n =? 195)%nat && (n' =? 191)%nat
          then String (ascii_of_nat 197)
                 (String (ascii_of_nat 184) (upper_latin1 s''))
          else if (n =? 194)%nat && (n' =? 181)%nat
          then String (ascii_of_nat 206)
                 (String (ascii_of_nat 156) (upper_latin1 s''))
          else String (upper_char c) (upper_latin1 s')
      end
  end.

(** [s.replace('+', '')] *)
Fixpoint remove_plus (s : string) : string :=
  match s with
  | EmptyString => EmptyString
  | String c s' =>
      if Ascii.eqb c "+"%char then remove_plus s' else String c (remove_plus s')
  end.

(** [s.strip()]: the characters of [string.whitespace] *)
Definition is_space (c : ascii) : bool :=
  let n := nat_of_ascii c in
  (n =? 32)%nat || ((9 <=? n)%nat && (n <=? 13)%nat).

Fixpoint lstrip (s : string) : string :=
  match s with
  | EmptyString => EmptyString
  | String c s' => if is_space c then lstrip s' else s
  end.

Fixpoint rstrip (s : string) : string :=
  match s with
  | EmptyString => EmptyString
  | String c s' =>
      match rstrip s' with
      | EmptyString => if is_space c then EmptyString else String c EmptyString
      | t => String c t
      end
  end.

Definition strip (s : string) : string := rstrip (lstrip s).

(** [s.split(' ')]: an explicit separator, so empty tokens are kept and the
    result is never empty *)
Fixpoint split_space (s : string) : list string :=
  match s with
  | EmptyString => [EmptyString]
  | String c s' =>
      if Ascii.eqb c " "%char then EmptyString :: split_space s'
      else match split_space s' with
           | [] => [String c EmptyString]
           | t :: ts => String c t :: ts
           end
  end.

(** [s.find(sub)]: lowest index of an occurrence, [-1] when there is none *)
Fixpoint find_from (sub s : string) (i : Z) : Z :=
  if String.prefix sub s then i
  else match s with
       | EmptyString => (-1)%Z
       | String _ s' => find_from sub s' (i + 1)%Z
       end.

Definition find (s sub : string) : Z := find_from sub s 0%Z.

End Str.

(** ** Python 2 dicts in iteration order *)

Abbreviation dict V := (list (string * V)).

Section Dict.
Context {V : Type}.

Definition keys (d : dict V) : list string := d.*1.
Definition values (d : dict V) : list V := d.*2.

(** [d[k]], [None] standing for [KeyError] *)
Fixpoint dict_get (k : string) (d : dict V) : option V :=
  match d with
  | [] => None
  | (k', v) :: d' => if decide (k = k') then Some v else dict_get k d'
  end.

(** [k in d] *)
Definition dict_mem (k : string) (d : dict V) : bool :=
  match dict_get k d with Some _ => true | None => false end.

(** [d[k] = v] *)
Fixpoint dict_set (k : string) (v : V) (d : dict V) : dict V :=
  match d with
  | [] => [(k, v)]
  | (k', v') :: d' =>
      if decide (k = k') then (k, v) :: d' else (k', v') :: dict_set k v d'
  end.

(** the entries left by [del d[k]] (a dict holds a key once) *)
Definition dict_remove (k : string) (d : dict V) : dict V :=
  filter (fun kv => kv.1 ≠ k) d.

(** [del d[k]], [None] standing for [KeyError] *)
Definition dict_del (k : string) (d : dict V) : option (dict V) :=
  if dict_mem k d then Some (dict_remove k d) else None.

End Dict.

(** ** Records and the store *)

Definition loc := nat.
Abbreviation record := (gmap string string).
Definition heap := loc -> record.

(** [h[l][f] = v] *)
Definition store (l : loc) (f v : string) (h : heap) : heap :=
  fun l' => if decide (l' = l) then <[f := v]> (h l) else h l'.

(** [h[l].update(r)] *)
Definition update (l : loc) (r : record) (h : heap) : heap :=
  fun l' => if decide (l' = l) then r ∪ h l else h l'.

(** ** Reindexer *)

Fixpoint reindex_loop (h : heap) (vals : list loc) (key : string)
    (newdict : dict loc) : outcome (dict loc) :=
  match vals with
  | [] => Ret newdict
  | data :: rest =>
      match h data !! key with
      | None => Raise KeyError
      | Some v => reindex_loop h rest key (dict_set v data newdict)
      end
  end.

Definition reindex (h : heap) (dataset : dict loc) (key : string)
    : outcome (dict loc) :=
  reindex_loop h (values dataset) key [].

(** ** Number splitting *)

Definition regions : list string :=
  ["region_a"; "region_b"; "region_c"; "region_d"].

(** [[x.pop(1) for x in numbers]] *)
Fixpoint pop1_all (numbers : list (list string)) : outcome (list string) :=
  match numbers with
  | [] => Ret []
  | x :: rest =>
      match x with
      | _ :: rc :: _ =>
          match pop1_all rest with
          | Ret rcs => Ret (rc :: rcs)
          | Raise e => Raise e
          end
      | _ => Raise IndexError
      end
  end.

(** [for rc in region_codes: result[regions.pop(0)] = rc] *)
Fixpoint assign_regions (result : record) (regions : list string)
    (region_codes : list string) {struct region_codes} : outcome record :=
  match region_codes with
  | [] => Ret result
  | rc :: rest =>
      match regions with
      | [] => Raise IndexError
      | r :: regions' => assign_regions (<[r := rc]> result) regions' rest
      end
  end.

Definition tokens (x : string) : list string :=
  Str.split_space (Str.strip (Str.remove_plus x)).

Definition _split_numbers (numbers : list string) : outcome record :=
  let numbers := tokens <$> numbers in
  match numbers with
  | [] => Raise IndexError
  | [] :: _ => Raise IndexError
  | (idc :: more) :: _ =>
      let result : record := <["idc" := idc]> ∅ in
      if (1 <? length (idc :: more))%nat then
        match pop1_all numbers with
        | Ret region_codes => assign_regions result regions region_codes
        | Raise e => Raise e
        end
      else Ret result
  end.

(** ** Blender *)

Record blend_state := BlendState {
  bs_heap : heap;
  bs_newdata : dict loc;
  bs_patched : list loc
}.

(** The body of the outer [try] of the loop (merge on the ISO3 key): the
    store it leaves, the value of [PATCHED], and whether it raised. *)
Definition blend_try_iso3 {U : Str.Upper} (h : heap) (und : dict loc)
    (iso3 : string) (data : loc) : heap * bool * outcome unit :=
  match dict_get iso3 und with
  | None => (h, false, Raise KeyError)
  | Some undata =>
      match h undata !! "name" with
      | None => (h, false, Raise KeyError)
      | Some unm =>
          let unname := Str.upper unm in
          match h data !! "number" with
          | None => (h, false, Raise KeyError)
          | Some dnum =>
              match h undata !! "number" with
              | None => (h, false, Raise KeyError)
              | Some unum =>
                  let PATCHED := bool_decide (dnum ≠ unum) in
                  match h data !! "name" with
                  | None => (h, PATCHED, Raise KeyError)
                  | Some dname =>
                      let PATCHED := PATCHED || bool_decide (dname ≠ unname) in
                      let h := store data "number" unum h in
                      let h := store data "name" unname h in
                      (h, PATCHED, Ret tt)
                  end
              end
          end
      end
  end.

(** The body of the inner [try] (fallback join on the ISO number), entered
    on [KeyError]: the store, the blended dict, the value of the loop
    variable [iso3] and the value of [PATCHED] it leaves; a [KeyError]
    inside it is swallowed by [except KeyError: pass]. *)
Definition blend_try_number {U : Str.Upper} (h : heap)
    (isonum newdata : dict loc) (iso3 : string) (data : loc) (PATCHED : bool)
    : heap * dict loc * string * bool :=
  match h data !! "number" with
  | None => (h, newdata, iso3, PATCHED)
  | Some dnum =>
      match dict_get dnum isonum with
      | None => (h, newdata, iso3, PATCHED)
      | Some undata =>
          let oldiso3 := iso3 in
          match h undata !! "iso3" with
          | None => (h, newdata, iso3, PATCHED)
          | Some iso3 =>
              let h := store data "iso3" iso3 h in
              match h undata !! "name" with
              | None => (h, newdata, iso3, PATCHED)
              | Some unm =>
                  let h := store data "name" (Str.upper unm) h in
                  let newdata := dict_set iso3 data newdata in
                  match dict_del oldiso3 newdata with
                  | None => (h, newdata, iso3, PATCHED)
                  | Some newdata => (h, newdata, iso3, true)
                  end
              end
          end
      end
  end.

(** One iteration of [for iso3, data in newdata.items()]. *)
Definition blend_item {U : Str.Upper} (und isonum : dict loc) (st : blend_state)
    (item : string * loc) : blend_state :=
  let '(iso3, data) := item in
  let '(h, PATCHED, r) := blend_try_iso3 (bs_heap st) und iso3 data in
  let '(h, newdata, iso3, PATCHED) :=
    match r with
    | Ret _ => (h, bs_newdata st, iso3, PATCHED)
    | Raise _ => blend_try_number h isonum (bs_newdata st) iso3 data PATCHED
    end in
  let patched := if PATCHED then bs_patched st ++ [data] else bs_patched st in
  BlendState h (dict_set iso3 data newdata) patched.

(** [for iso3 in missing_iso3]: the primary records the blend lacks. *)
Fixpoint blend_missing {U : Str.Upper} (und : dict loc)
    (missing_iso3 : list string) (st : blend_state) : heap * outcome (dict loc * list loc) :=
  match missing_iso3 with
  | [] => (bs_heap st, Ret (bs_newdata st, bs_patched st))
  | iso3 :: rest =>
      match dict_get iso3 und with
      | None => (bs_heap st, Raise KeyError)
      | Some data =>
          let h := store data "iso2" "" (bs_heap st) in
          match h data !! "name" with
          | None => (h, Raise KeyError)
          | Some nm =>
              let h := store data "name" (Str.upper nm) h in
              blend_missing und rest
                (BlendState h (dict_set iso3 data (bs_newdata st))
                   (bs_patched st ++ [data]))
          end
      end
  end.

(** [list(set(und.keys()) - set(newdata.keys()))]; a set has no order of its
    own, the model lists it in the order of [und]. *)
Definition missing_keys (und newdata : dict loc) : list string :=
  list_difference (remove_dups (keys und)) (keys newdata).

Definition blend_un_wad {U : Str.Upper} (h : heap) (und wad : dict loc)
    : heap * outcome (dict loc * list loc) :=
  let newdata := wad in
  match reindex h und "number" with
  | Raise e => (h, Raise e)
  | Ret isonum =>
      let st := fold_left (blend_item und isonum) newdata
                  (BlendState h newdata []) in
      blend_missing und (missing_keys und (bs_newdata st)) st
  end.

(** ** Code Augmenter *)

Definition COUNTRY_MAPPINGS : dict string :=
  [ ("UNITED STATES", "UNITED STATES OF AMERICA");
    ("SAINT MARTIN (FRANCE)", "SAINT-MARTIN (FRENCH PART)");
    ("SOUTH GEORGIA AND THE SOUTH SANDWICH ISLANDS",
     "SOUTH GEORGIA AND SOUTH S.S.");
    ("CARIBBEAN NETHERLANDS", "NETHERLANDS ANTILLES");
    ("LAOS", "LAO PEOPLE'S DEMOCRATIC REPUBLIC");
    ("BURMA", "MYANMAR");
    ("MICRONESIA, FEDERATED STATES OF", "MICRONESIA (FEDERATED STATES OF)");
    ("KOREA, NORTH", "DEMOCRATIC PEOPLE'S REPUBLIC OF KOREA");
    ("KOREA, SOUTH", "REPUBLIC OF KOREA");
    ("CONGO, DEMOCRATIC REPUBLIC OF THE (ZAIRE)",
     "DEMOCRATIC REPUBLIC OF THE CONGO");
    ("US VIRGIN ISLANDS", "UNITED STATES VIRGIN ISLANDS");
    ("MACAU", "CHINA, MACAO SPECIAL ADMINISTRATIVE REGION");
    ("FAROE ISLANDS", "FAEROE ISLANDS");
    ("EAST TIMOR", "TIMOR-LESTE");
    ("PALESTINIAN TERRITORIES", "STATE OF PALESTINE");
    ("VATICAN CITY STATE (HOLY SEE)", "HOLY SEE (VATICAN CITY STATE)");
    ("SAINT BARTHÉLEMY", "SAINT-BARTHÉLEMY");
    ("SINT MAARTEN (NETHERLANDS)", "SINT MAARTEN (DUTCH PART)");
    ("SÃO TOMÉ AND PRÍNCIPE", "SAO TOME AND PRINCIPE");
    ("SINT EUSTATIUS", "BONAIRE, SAINT EUSTATIUS AND SABA") ].

(** [if country in COUNTRY_MAPPINGS: country = COUNTRY_MAPPINGS[country]] *)
Definition canonical_name (country : string) : string :=
  match dict_get country COUNTRY_MAPPINGS with
  | Some c => c
  | None => country
  end.

(** [[c for c in byname.keys() if c.find(country) >= 0]] *)
Definition possible_countries (byname : dict loc) (country : string)
    : list string :=
  filter (fun c => (0 <= Str.find c country)%Z) (keys byname).

(** One iteration of [for country, numbers in country_codes.items()]; the
    diagnostics written to [stderr] under [verbose] are not modelled. *)
Definition map_numbers_item (byname : dict loc) (h : heap)
    (item : string * list string) : heap * outcome unit :=
  let '(country, numbers) := item in
  let country := canonical_name country in
  match dict_get country byname with
  | Some data =>
      let numbers :=
        if decide (country = "HOLY SEE (VATICAN CITY STATE)")
        then ["+39 066"] else numbers in
      match _split_numbers numbers with
      | Ret r => (update data r h, Ret tt)
      | Raise e => (h, Raise e)
      end
  | None =>
      let possible := possible_countries byname country in
      if (length possible =? 1)%nat then
        match possible with
        | [] => (h, Raise IndexError)
        | c :: _ =>
            match dict_get c byname with
            | None => (h, Raise KeyError)
            | Some data =>
                match _split_numbers numbers with
                | Ret r => (update data r h, Ret tt)
                | Raise e => (h, Raise e)
                end
            end
        end
      else (h, Ret tt)
  end.

Fixpoint map_numbers_loop (byname : dict loc) (h : heap)
    (items : dict (list string)) : heap * outcome unit :=
  match items with
  | [] => (h, Ret tt)
  | item :: rest =>
      match map_numbers_item byname h item with
      | (h, Ret _) => map_numbers_loop byname h rest
      | (h, Raise e) => (h, Raise e)
      end
  end.

(** [map_numbers] returns nothing and works in place: the result is the
    store and the blended dict it leaves behind. *)
Definition map_numbers (h : heap) (data : dict loc)
    (country_codes : dict (list string)) : heap * dict loc * outcome unit :=
  match reindex h data "name" with
  | Raise e => (h, data, Raise e)
  | Ret byname =>
      let '(h, r) := map_numbers_loop byname h country_codes in
      (h, data, r)
  end.

(** ** The filter of [make_dataset] *)

(** [for iso3 in iso3list: if blend[iso3].get('idc', '') == '': del blend[iso3]] *)
Fixpoint drop_no_idc (h : heap) (iso3list : list string) (blend : dict loc)
    : outcome (dict loc) :=
  match iso3list with
  | [] => Ret blend
  | iso3 :: rest =>
      match dict_get iso3 blend with
      | None => Raise KeyError
      | Some l =>
          if decide (default "" (h l !! "idc") = "")
          then match dict_del iso3 blend with
               | None => Raise KeyError
               | Some blend => drop_no_idc h rest blend
               end
          else drop_no_idc h rest blend
      end
  end.

(** [make_dataset] up to the point where the data set is handed to the
    writers; the three downloads are its inputs. *)
Definition make_dataset {U : Str.Upper} (h : heap) (und wad : dict loc)
    (country_codes : dict (list string)) (ignore : bool)
    : heap * outcome (dict loc * list loc) :=
  match blend_un_wad h und wad with
  | (h, Raise e) => (h, Raise e)
  | (h, Ret (blend, patched)) =>
      match map_numbers h blend country_codes with
      | (h, blend, Raise e) => (h, Raise e)
      | (h, blend, Ret _) =>
          if ignore then
            match drop_no_idc h (keys blend) blend with
            | Raise e => (h, Raise e)
            | Ret blend => (h, Ret (blend, patched))
            end
          else (h, Ret (blend, patched))
      end
  end.

(** * Vocabulary of the properties *)

(** ** Reindexer *)

(** The record a re-indexed dict holds under [v]: the last record, in
    iteration order, whose field [key] is [v]. *)
Fixpoint pick (h : heap) (key v : string) (vals : list loc) (acc : option loc)
    : option loc :=
  match vals with
  | [] => acc
  | l :: rest =>
      pick h key v rest (if decide (h l !! key = Some v) then Some l else acc)
  end.

(** ** Number splitting *)

Definition first_token (x : string) : string := hd "" (tokens x).
Definition second_token (x : string) : option string := tokens x !! 1%nat.

Definition augment_fields : list string := "idc" :: regions.

(** ** Blender *)

(** No write ever removes a field. *)
Definition kept (h h' : heap) : Prop :=
  ∀ l f, is_Some (h l !! f) → is_Some (h' l !! f).

(** What the loop body does with an item, read off the data before the
    loop: merge with the primary record of the same ISO3, adopt the ISO3
    of the primary record of the same number, or keep. *)
Inductive route := Merge (undata : loc) | Adopt (undata : loc) | Keep.

Definition route_of (h : heap) (und isonum : dict loc) (item : string * loc)
    : route :=
  match dict_get item.1 und with
  | Some undata => Merge undata
  | None =>
      match h item.2 !! "number" ≫= (fun n => dict_get n isonum) with
      | Some undata => Adopt undata
      | None => Keep
      end
  end.

Definition field (h : heap) (l : loc) (f : string) : string :=
  default "" (h l !! f).

(** The key an item is stored under when its iteration ends. *)
Definition resolved_key (h : heap) (und isonum : dict loc)
    (item : string * loc) : string :=
  match route_of h und isonum item with
  | Adopt undata => field h undata "iso3"
  | _ => item.1
  end.

(** The record of an item when its iteration ends. *)
Definition blended_record {U : Str.Upper} (h : heap) (und isonum : dict loc)
    (item : string * loc) : record :=
  match route_of h und isonum item with
  | Merge undata =>
      <["name" := Str.upper (field h undata "name")]>
        (<["number" := field h undata "number"]> (h item.2))
  | Adopt undata =>
      <["name" := Str.upper (field h undata "name")]>
        (<["iso3" := field h undata "iso3"]> (h item.2))
  | Keep => h item.2
  end.

(** The value of [PATCHED] when its iteration ends. *)
Definition is_patched {U : Str.Upper} (h : heap) (und isonum : dict loc)
    (item : string * loc) : bool :=
  match route_of h und isonum item with
  | Merge undata =>
      bool_decide (field h item.2 "number" ≠ field h undata "number")
      || bool_decide (field h item.2 "name" ≠ Str.upper (field h undata "name"))
  | Adopt _ => true
  | Keep => false
  end.

(** The effect of one iteration on the entry of the blended dict under [K]. *)
Definition settle (h : heap) (und isonum : dict loc) (K : string)
    (acc : option loc) (item : string * loc) : option loc :=
  if decide (K = resolved_key h und isonum item) then Some item.2
  else if decide (K = item.1) then None else acc.

(** The entry of the blended dict under [K] after a run over [items]. *)
Definition settled (h : heap) (und isonum : dict loc) (K : string)
    (items : dict loc) (acc : option loc) : option loc :=
  fold_left (settle h und isonum K) items acc.

(** The state of the first loop of the Blender after the items [done_],
    in terms of the store [h0] it started from. *)
Definition loop_inv {U : Str.Upper} (h0 : heap) (und wad isonum : dict loc)
    (done_ : dict loc) (st : blend_state) : Prop :=
  (∀ k l, (k, l) ∈ done_ →
     bs_heap st l = blended_record h0 und isonum (k, l)) ∧
  (∀ l, l ∉ values done_ → bs_heap st l = h0 l) ∧
  (∀ K, dict_get K (bs_newdata st)
        = settled h0 und isonum K done_ (dict_get K wad)) ∧
  bs_patched st
    = (filter (fun item => is_patched h0 und isonum item = true) done_).*2.

(** A data set of country records keyed by their ISO3, each with a number
    and a name. *)
Definition iso3_keyed (h : heap) (d : dict loc) : Prop :=
  Forall (fun kl => h kl.2 !! "iso3" = Some kl.1 ∧
                    is_Some (h kl.2 !! "number") ∧
                    is_Some (h kl.2 !! "name")) d.

(** The two code tables as the adapters build them: dicts (no key twice) of
    records keyed by their ISO3, every record an object of its own. *)
Record source_data (h : heap) (und wad : dict loc) : Prop := SourceData {
  sd_und_keys : NoDup (keys und);
  sd_wad_keys : NoDup (keys wad);
  sd_fresh : NoDup (values und ++ values wad);
  sd_und : iso3_keyed h und;
  sd_wad : iso3_keyed h wad
}.

(** * Test data *)

(** The case mapping the test tables are run with. *)
Definition latin1 : Str.Upper := Str.upper_latin1.

Definition mkrec (fs : list (string * string)) : record := list_to_map fs.

Definition heap_of (rs : list record) : heap := fun l => nth l rs ∅.

(** The conflict of the specification: primary [ABC/004/Foo] (record 0)
    against broad [ABC/005/FOO BAR] (record 1). *)
Definition abc_heap : heap := heap_of
  [ mkrec [("number", "004"); ("name", "Foo"); ("iso3", "ABC")];
    mkrec [("iso2", "AB"); ("iso3", "ABC"); ("number", "005");
           ("name", "FOO BAR")] ].

(** Three primary records (0, 2, 4) and three broad ones (1, 3, 5): a
    shared ISO3, an ISO3 that differs while the number agrees, a primary
    record the broad table lacks and a broad record the primary lacks. *)
Definition ex_heap : heap := heap_of
  [ mkrec [("number", "004"); ("name", "Foo"); ("iso3", "ABC")];
    mkrec [("iso2", "AB"); ("iso3", "ABC"); ("number", "005");
           ("name", "FOO BAR")];
    mkrec [("number", "642"); ("name", "Romania"); ("iso3", "ROU")];
    mkrec [("iso2", "RO"); ("iso3", "ROM"); ("number", "642");
           ("name", "ROMANIA")];
    mkrec [("number", "728"); ("name", "South Sudan"); ("iso3", "SSD")];
    mkrec [("iso2", "TW"); ("iso3", "TWN"); ("number", "158");
           ("name", "TAIWAN")] ].
Definition ex_und : dict loc := [("ABC", 0); ("ROU", 2); ("SSD", 4)]%nat.
Definition ex_wad : dict loc := [("ABC", 1); ("ROM", 3); ("TWN", 5)]%nat.
Definition ex_codes : dict (list string) :=
  [("ROMANIA", ["+40"]); ("TAIWAN", ["+886"]); ("ATLANTIS", ["+0"])].

(** Two tables that agree, the broad name being the primary name in upper
    case. *)
Definition agree_heap : heap := heap_of
  [ mkrec [("number", "384"); ("name", "Côte d'Ivoire"); ("iso3", "CIV")];
    mkrec [("iso2", "CI"); ("iso3", "CIV"); ("number", "384");
           ("name", "CÔTE D'IVOIRE")] ].

(** Two tables with the same number and the same name, not in upper case. *)
Definition same_heap : heap := heap_of
  [ mkrec [("number", "004"); ("name", "Foo"); ("iso3", "ABC")];
    mkrec [("iso2", "AB"); ("iso3", "ABC"); ("number", "004");
           ("name", "Foo")] ].

(** Two broad records with the number of the one primary record. *)
Definition clash_heap : heap := heap_of
  [ mkrec [("number", "642"); ("name", "Romania"); ("iso3", "ROU")];
    mkrec [("iso2", "RO"); ("iso3", "ROM"); ("number", "642");
           ("name", "ROMANIA")];
    mkrec [("iso2", "RX"); ("iso3", "ROX"); ("number", "642");
           ("name", "RUMANIA")] ].

(** Two blended records whose names both contain the incoming name
    [SAINT MARTIN], none of them equal to it. *)
Definition saint_heap : heap := heap_of
  [ mkrec [("iso2", "SX"); ("iso3", "SXM"); ("number", "534");
           ("name", "SAINT MARTIN (DUTCH)")];
    mkrec [("iso2", "MF"); ("iso3", "MAF"); ("number", "663");
           ("name", "SAINT MARTIN (FRENCH)")] ].
Definition saint_data : dict loc := [("SXM", 0); ("MAF", 1)]%nat.

(** The two records of the ambiguous-name example of the specification. *)
Definition martin_heap : heap := heap_of
  [ mkrec [("iso2", "SX"); ("iso3", "SXM"); ("number", "534");
           ("name", "SAINT MARTIN")];
    mkrec [("iso2", "MF"); ("iso3", "MAF"); ("number", "663");
           ("name", "SAINT MARTIN (FRENCH)")] ].

(** Two records with the same number (0 and 1) and one without a number. *)
Definition dup_heap : heap := heap_of
  [ mkrec [("number", "642"); ("name", "Romania"); ("iso3", "ROU")];
    mkrec [("number", "642"); ("name", "Rumania"); ("iso3", "ROM")];
    mkrec [("name", "Nowhere"); ("iso3", "NWH")] ].

(** Two blended records: the Holy See and France, the latter with a region
    left by an earlier augmentation. *)
Definition vat_heap : heap := heap_of
  [ mkrec [("iso2", "VA"); ("iso3", "VAT"); ("number", "336");
           ("name", "HOLY SEE (VATICAN CITY STATE)")];
    mkrec [("iso2", "FR"); ("iso3", "FRA"); ("number", "250");
           ("name", "FRANCE"); ("region_a", "9")] ].
Definition vat_data : dict loc := [("VAT", 0); ("FRA", 1)]%nat.

(** * Properties *)

(** ** Dict laws *)

Section DictLaws.
Context {V : Type}.
Implicit Types (d : dict V) (k : string) (v : V).

Lemma dict_get_set k' k v d :
  dict_get k' (dict_set k v d) = if decide (k' = k) then Some v else dict_get k' d.
Proof.
  induction d as [|[k0 v0] d IH]; simpl.
  - repeat case_decide; congruence.
  - repeat (case_decide; simpl); congruence.
Qed.

Lemma dict_get_remove k' k d :
  dict_get k' (dict_remove k d) = if decide (k' = k) then None else dict_get k' d.
Proof.
  unfold dict_remove. induction d as [|[k0 v0] d IH].
  - simpl. by case_decide.
  - rewrite filter_cons. simpl.
    repeat (case_decide; simpl); try congruence.
Qed.

Lemma dict_get_elem_of k v d : dict_get k d = Some v → (k, v) ∈ d.
Proof.
  induction d as [|[k0 v0] d IH]; simpl; [done|].
  case_decide as Hk; [intros [= ->]; subst; left|].
  intros; right; auto.
Qed.

Lemma dict_get_None k d : dict_get k d = None ↔ k ∉ keys d.
Proof.
  unfold keys. induction d as [|[k0 v0] d IH]; simpl.
  - split; [intros _; apply not_elem_of_nil|done].
  - rewrite not_elem_of_cons. case_decide; [|tauto].
    split; [done|]. by intros [? _].
Qed.

Lemma dict_get_is_Some k d : is_Some (dict_get k d) ↔ k ∈ keys d.
Proof.
  destruct (dict_get k d) eqn:E.
  - split; [intros _|by eauto].
    apply dict_get_elem_of in E. apply list_elem_of_fmap. by exists (k, v).
  - apply dict_get_None in E. split; [by intros [? ?]|done].
Qed.

Lemma dict_mem_elem_of k d : dict_mem k d = true ↔ k ∈ keys d.
Proof.
  rewrite <- dict_get_is_Some. unfold dict_mem.
  destruct (dict_get k d); split; try done; try by eauto.
Qed.

Lemma elem_of_dict_get k v d : NoDup (keys d) → (k, v) ∈ d → dict_get k d = Some v.
Proof.
  unfold keys. induction d as [|[k0 v0] d IH]; simpl.
  - by intros _ ?%elem_of_nil.
  - intros [Hk0 Hnd]%NoDup_cons [[= -> ->]|Hin]%elem_of_cons.
    + by case_decide.
    + case_decide as Hk; [|by apply IH]. subst.
      exfalso. apply Hk0. apply list_elem_of_fmap. by exists (k0, v).
Qed.

Lemma elem_of_keys_dict_set k' k v d :
  k' ∈ keys (dict_set k v d) ↔ k' = k ∨ k' ∈ keys d.
Proof.
  rewrite <- !dict_get_is_Some, dict_get_set.
  case_decide as Hk.
  - split; [by left|by eauto].
  - split; [by right|]. by intros [?|?].
Qed.

Lemma elem_of_keys_dict_remove k' k d :
  k' ∈ keys (dict_remove k d) ↔ k' ≠ k ∧ k' ∈ keys d.
Proof.
  rewrite <- !dict_get_is_Some, dict_get_remove.
  case_decide as Hk.
  - split; [by intros [? ?]|by intros [? _]].
  - tauto.
Qed.

Lemma keys_dict_set k v d :
  keys (dict_set k v d) = if dict_mem k d then keys d else keys d ++ [k].
Proof.
  unfold dict_mem, keys. induction d as [|[k0 v0] d IH]; [done|].
  cbn [dict_set dict_get]. case_decide as Hk; [by subst|].
  rewrite !fmap_cons, IH. by destruct (dict_get k d).
Qed.

Lemma NoDup_keys_dict_set k v d : NoDup (keys d) → NoDup (keys (dict_set k v d)).
Proof.
  intros Hnd. rewrite keys_dict_set. destruct (dict_mem k d) eqn:E; [done|].
  apply NoDup_app. split_and!; [done| |apply NoDup_singleton].
  intros x Hx ->%list_elem_of_singleton.
  apply dict_mem_elem_of in Hx. congruence.
Qed.

Lemma NoDup_keys_dict_remove k d : NoDup (keys d) → NoDup (keys (dict_remove k d)).
Proof.
  unfold dict_remove, keys. induction d as [|[k0 v0] d IH]; [done|].
  rewrite fmap_cons. intros [Hk0 Hnd]%NoDup_cons. rewrite filter_cons. simpl.
  case_decide; [|by apply IH].
  simpl. apply NoDup_cons. split; [|by apply IH].
  intros ([k1 v1] & -> & [_ Hin]%list_elem_of_filter)%list_elem_of_fmap.
  apply Hk0. apply list_elem_of_fmap. by exists (k1, v1).
Qed.

Lemma elem_of_dict_set k' v' k v d :
  (k', v') ∈ dict_set k v d → (k' = k ∧ v' = v) ∨ (k', v') ∈ d.
Proof.
  induction d as [|[k0 v0] d IH]; simpl.
  - intros [[= -> ->]|[]%elem_of_nil]%elem_of_cons; by left.
  - case_decide as Hk; simpl.
    + intros [[= -> ->]|?]%elem_of_cons; [by left|by right; right].
    + intros [[= -> ->]|?]%elem_of_cons; [by right; left|].
      destruct IH as [?|?]; auto. by right; right.
Qed.

Lemma elem_of_dict_remove k' v' k d : (k', v') ∈ dict_remove k d → (k', v') ∈ d.
Proof. unfold dict_remove. by intros [_ ?]%list_elem_of_filter. Qed.

Lemma length_dict_set_fresh k v d :
  dict_get k d = None → length (dict_set k v d) = S (length d).
Proof.
  induction d as [|[k0 v0] d IH]; simpl; [done|].
  case_decide; [done|]. intros. simpl. by rewrite IH.
Qed.

Lemma dict_del_Some k d d' : dict_del k d = Some d' → d' = dict_remove k d.
Proof. unfold dict_del. destruct (dict_mem k d); congruence. Qed.

Lemma dict_del_present k d : k ∈ keys d → dict_del k d = Some (dict_remove k d).
Proof. intros H%dict_mem_elem_of. unfold dict_del. by rewrite H. Qed.

End DictLaws.

(** ** Store laws *)

Lemma store_same l f v h : store l f v h l = <[f := v]> (h l).
Proof. unfold store. by case_decide. Qed.

Lemma store_other l l' f v h : l' ≠ l → store l f v h l' = h l'.
Proof. unfold store. intros H. by case_decide. Qed.

Lemma store_field_other l l' f f' v h :
  f' ≠ f → store l f v h l' !! f' = h l' !! f'.
Proof.
  unfold store. intros Hf. case_decide; [|done]. subst.
  by rewrite lookup_insert_ne.
Qed.

Lemma store_is_Some l l' f f' v h :
  is_Some (h l' !! f') → is_Some (store l f v h l' !! f').
Proof.
  unfold store. case_decide; [|done]. subst.
  rewrite lookup_insert. case_decide; eauto.
Qed.

Lemma update_other_field l l' r h f :
  r !! f = None → update l r h l' !! f = h l' !! f.
Proof.
  unfold update. intros Hf. case_decide; [|done]. subst.
  by rewrite lookup_union_r.
Qed.

(** ** Reindexer *)

Section Reindex.
Variables (h : heap) (key : string).

Lemma reindex_loop_get vals d0 d v :
  reindex_loop h vals key d0 = Ret d →
  dict_get v d = pick h key v vals (dict_get v d0).
Proof.
  revert d0. induction vals as [|l vals IH]; intros d0; simpl.
  - by intros [= ->].
  - destruct (h l !! key) as [w|] eqn:E; [|done].
    intros Hd. rewrite (IH _ Hd), dict_get_set.
    f_equal. repeat case_decide; congruence.
Qed.

Lemma reindex_loop_total vals d0 :
  Forall (fun l => is_Some (h l !! key)) vals →
  ∃ d, reindex_loop h vals key d0 = Ret d.
Proof.
  revert d0. induction vals as [|l vals IH]; intros d0 Hall; simpl; [by eauto|].
  apply Forall_cons in Hall as [[w ->] Hall]. by apply IH.
Qed.

Lemma reindex_loop_fields vals d0 d :
  reindex_loop h vals key d0 = Ret d →
  Forall (fun l => is_Some (h l !! key)) vals.
Proof.
  revert d0. induction vals as [|l vals IH]; intros d0; simpl; [by constructor|].
  destruct (h l !! key) as [w|] eqn:E; [|done].
  intros Hd. constructor; [by eauto|by eapply IH].
Qed.

Lemma pick_Some v vals acc l :
  pick h key v vals acc = Some l →
  (l ∈ vals ∧ h l !! key = Some v) ∨ acc = Some l.
Proof.
  revert acc. induction vals as [|l0 vals IH]; intros acc; simpl; [by right|].
  intros [[Hin Hl]|Hacc]%IH.
  - left. split; [by right|done].
  - case_decide; [|by right]. injection Hacc as <-. left. split; [left|done].
Qed.

Lemma pick_is_Some v vals acc l :
  l ∈ vals → h l !! key = Some v → is_Some (pick h key v vals acc).
Proof.
  revert acc. induction vals as [|l0 vals IH]; intros acc; simpl.
  - by intros ?%elem_of_nil.
  - intros [->|Hin]%elem_of_cons Hl; [|by apply IH].
    rewrite decide_True by done. clear IH.
    generalize (Some l0 : option loc) (ex_intro (fun x => Some l0 = Some x) l0 eq_refl).
    induction vals as [|l1 vals IH]; intros acc' Hacc'; simpl; [done|].
    apply IH. case_decide; eauto.
Qed.

Lemma pick_absent v vals acc :
  Forall (fun l => h l !! key ≠ Some v) vals → pick h key v vals acc = acc.
Proof.
  revert acc. induction vals as [|l0 vals IH]; intros acc Hall; simpl; [done|].
  apply Forall_cons in Hall as [Hl0 Hall]. rewrite IH by done. by case_decide.
Qed.

Lemma pick_distinct v vals acc l :
  NoDup ((fun l => h l !! key) <$> vals) →
  l ∈ vals → h l !! key = Some v → pick h key v vals acc = Some l.
Proof.
  revert acc. induction vals as [|l0 vals IH]; intros acc; csimpl.
  - by intros _ ?%elem_of_nil.
  - intros [Hl0 Hnd]%NoDup_cons [->|Hin]%elem_of_cons Hl.
    + rewrite decide_True by done. apply pick_absent.
      apply Forall_forall. intros l1 Hl1 Heq. apply Hl0.
      apply list_elem_of_fmap. exists l1. split; [congruence|done].
    + by apply IH.
Qed.

Lemma reindex_loop_length vals d0 d :
  NoDup ((fun l => h l !! key) <$> vals) →
  (∀ l v, l ∈ vals → h l !! key = Some v → dict_get v d0 = None) →
  reindex_loop h vals key d0 = Ret d →
  length d = (length d0 + length vals)%nat.
Proof.
  revert d0. induction vals as [|l vals IH]; intros d0; csimpl.
  - intros _ _ [= ->]. lia.
  - intros [Hl Hnd]%NoDup_cons Hfresh.
    destruct (h l !! key) as [w|] eqn:E; [|done].
    intros Hd. rewrite (IH _ Hnd) with (2 := Hd).
    + rewrite length_dict_set_fresh; [lia|]. apply (Hfresh l); [left|done].
    + intros l1 v1 Hl1 Hv1. rewrite dict_get_set. case_decide as Hv.
      * subst. exfalso. apply Hl. apply list_elem_of_fmap.
        exists l1. split; [congruence|done].
      * apply (Hfresh l1); [by right|done].
Qed.

End Reindex.

Lemma reindex_lookup h dataset key d v l :
  reindex h dataset key = Ret d → dict_get v d = Some l →
  l ∈ values dataset ∧ h l !! key = Some v.
Proof.
  unfold reindex. intros Hd Hv.
  rewrite (reindex_loop_get _ _ _ _ _ v Hd) in Hv.
  by apply pick_Some in Hv as [?|?].
Qed.

Lemma reindex_covers h dataset key d v l :
  reindex h dataset key = Ret d → l ∈ values dataset → h l !! key = Some v →
  is_Some (dict_get v d).
Proof.
  unfold reindex. intros Hd Hl Hv.
  rewrite (reindex_loop_get _ _ _ _ _ v Hd). by eapply pick_is_Some.
Qed.

(** C8. Reindexer: when the chosen field has a value in every record and the
    values are pairwise distinct, [reindex] returns a dict with as many
    entries as its input, and every input record is found in it under its
    own value of the field. *)
Theorem reindex_distinct_field (h : heap) (dataset : dict loc) (key : string) :
  Forall (fun l => is_Some (h l !! key)) (values dataset) →
  NoDup ((fun l => h l !! key) <$> values dataset) →
  ∃ d, reindex h dataset key = Ret d ∧
       length d = length dataset ∧
       ∀ k l, (k, l) ∈ dataset →
              ∃ v, h l !! key = Some v ∧ dict_get v d = Some l.
Proof.
  intros Hall Hnd.
  destruct (reindex_loop_total h key (values dataset) [] Hall) as [d Hd].
  exists d. split_and!; [exact Hd| |].
  - rewrite (reindex_loop_length h key _ [] d Hnd) by done.
    unfold values. simpl. by rewrite length_fmap.
  - intros k l Hkl.
    assert (l ∈ values dataset) as Hl.
    { apply list_elem_of_fmap. by exists (k, l). }
    rewrite Forall_forall in Hall. destruct (Hall l Hl) as [v Hv].
    exists v. split; [done|].
    rewrite (reindex_loop_get h key _ _ _ v Hd). by apply pick_distinct.
Qed.

(** ** Number splitting *)

Lemma split_space_nonempty s : Str.split_space s ≠ [].
Proof.
  induction s as [|c s IH]; simpl; [done|].
  destruct (Ascii.eqb c " "); [done|]. by destruct (Str.split_space s).
Qed.

Lemma tokens_first x : ∃ more, tokens x = first_token x :: more.
Proof.
  unfold first_token. destruct (tokens x) as [|t more] eqn:E; [|by eauto].
  by apply split_space_nonempty in E.
Qed.

Lemma pop1_all_second (numbers : list string) :
  Forall (fun x => is_Some (second_token x)) numbers →
  ∃ rcs, pop1_all (tokens <$> numbers) = Ret rcs ∧
         length rcs = length numbers ∧
         ∀ i, rcs !! i = (numbers !! i) ≫= second_token.
Proof.
  unfold second_token.
  induction numbers as [|x xs IH]; csimpl.
  - intros _. exists []. split_and!; [done..|]. by intros [|i].
  - intros [[rc Hrc] Hall]%Forall_cons.
    destruct (IH Hall) as (rcs & -> & Hlen & Hrcs).
    destruct (tokens x) as [|t [|rc' more]] eqn:Hx; try done.
    exists (rc' :: rcs). split_and!; [done|simpl; lia|].
    intros [|i]; simpl; [by rewrite Hx|]. apply Hrcs.
Qed.

Lemma pop1_all_ragged (numbers : list string) :
  Exists (fun x => second_token x = None) numbers →
  pop1_all (tokens <$> numbers) = Raise IndexError.
Proof.
  unfold second_token.
  induction 1 as [x xs Hx|x xs Hx IH]; csimpl.
  - by destruct (tokens x) as [|t [|rc more]].
  - rewrite IH. by destruct (tokens x) as [|t [|rc more]].
Qed.

Lemma assign_regions_lookup rcs : ∀ regs (r : record),
  NoDup regs → (length rcs ≤ length regs)%nat →
  ∃ r', assign_regions r regs rcs = Ret r' ∧
        (∀ i name, regs !! i = Some name →
           r' !! name = match rcs !! i with Some rc => Some rc | None => r !! name end) ∧
        (∀ f, f ∉ regs → r' !! f = r !! f).
Proof.
  induction rcs as [|rc rcs IH]; intros regs r Hnd Hlen; simpl.
  - exists r. split_and!; [done| |done]. by intros i name _.
  - destruct regs as [|rg regs]; simpl in Hlen; [lia|].
    apply NoDup_cons in Hnd as [Hrg Hnd].
    destruct (IH regs (<[rg := rc]> r) Hnd ltac:(lia)) as (r' & Hr' & Hin & Hout).
    exists r'. split_and!; [done| |].
    + intros [|i] name Hname; simpl in *.
      * injection Hname as <-. rewrite Hout by done. by rewrite lookup_insert_eq.
      * rewrite (Hin i name Hname). destruct (rcs !! i); [done|].
        rewrite lookup_insert_ne; [done|]. intros ->.
        apply Hrg. by eapply list_elem_of_lookup_2.
    + intros f [Hf1 Hf2]%not_elem_of_cons. rewrite Hout by done.
      by rewrite lookup_insert_ne.
Qed.

Lemma assign_regions_overflow rcs : ∀ regs (r : record),
  (length regs < length rcs)%nat → assign_regions r regs rcs = Raise IndexError.
Proof.
  induction rcs as [|rc rcs IH]; intros regs r Hlen; simpl in *; [lia|].
  destruct regs as [|rg regs]; [done|]. apply IH. simpl in Hlen. lia.
Qed.

Lemma assign_regions_fields rcs : ∀ regs (r r' : record) f,
  assign_regions r regs rcs = Ret r' → f ∉ regs → r' !! f = r !! f.
Proof.
  induction rcs as [|rc rcs IH]; intros regs r r' f; simpl.
  - by intros [= ->].
  - destruct regs as [|rg regs]; [done|].
    intros Hr' [Hf1 Hf2]%not_elem_of_cons.
    rewrite (IH _ _ _ _ Hr' Hf2). by rewrite lookup_insert_ne.
Qed.

(** What [_split_numbers] returns has no field besides [idc] and
    [region_a] to [region_d]. *)
Lemma split_numbers_fields numbers r f :
  _split_numbers numbers = Ret r → f ∉ augment_fields → r !! f = None.
Proof.
  unfold _split_numbers, augment_fields.
  destruct (tokens <$> numbers) as [|[|idc more] rest]; [done..|].
  intros Hr [Hidc Hf]%not_elem_of_cons.
  destruct (1 <? length (idc :: more))%nat.
  - destruct (pop1_all _) as [rcs|]; [|done].
    rewrite (assign_regions_fields _ _ _ _ _ Hr Hf).
    by rewrite lookup_insert_ne.
  - injection Hr as <-. by rewrite lookup_insert_ne.
Qed.

(** More region codes than region fields: [regions.pop(0)] fails. *)
Lemma split_numbers_overflow (numbers : list string) :
  Forall (fun x => is_Some (second_token x)) numbers →
  (4 < length numbers)%nat → _split_numbers numbers = Raise IndexError.
Proof.
  intros Hall Hlen. unfold _split_numbers.
  destruct (pop1_all_second numbers Hall) as (rcs & Hrcs & Hl & _).
  rewrite Hrcs.
  destruct numbers as [|x xs]; [simpl in Hlen; lia|].
  apply Forall_cons in Hall as [[rc Hx] _]. unfold second_token in Hx.
  csimpl. destruct (tokens x) as [|idc [|rc' more]]; try done.
  simpl. apply assign_regions_overflow. simpl in *. lia.
Qed.

(** C2 (amended). For a non-empty list, whatever [_split_numbers] returns has
    as [idc] the first token of the first entry. It returns the [idc] alone
    when the first entry has no second token; and when every entry has a
    second token and there are at most four entries, it returns the second
    tokens, in source order, under [region_a], [region_b], [region_c],
    [region_d], the remaining region fields being absent. *)
Theorem split_numbers_regions (x : string) (xs : list string) :
  (∀ r, _split_numbers (x :: xs) = Ret r → r !! "idc" = Some (first_token x)) ∧
  (second_token x = None →
     _split_numbers (x :: xs) = Ret {[ "idc" := first_token x ]}) ∧
  (Forall (fun y => is_Some (second_token y)) (x :: xs) →
   (length (x :: xs) ≤ 4)%nat →
     ∃ r, _split_numbers (x :: xs) = Ret r ∧
          r !! "idc" = Some (first_token x) ∧
          ∀ i name, regions !! i = Some name →
                    r !! name = ((x :: xs) !! i) ≫= second_token).
Proof.
  assert (NoDup regions) as Hnd by compute_done.
  assert ("idc" ∉ regions) as Hidc by compute_done.
  destruct (tokens_first x) as [more Hx].
  split_and!.
  - intros r. unfold _split_numbers. csimpl. rewrite Hx.
    destruct more as [|rc more]; simpl.
    + intros [= <-]. by rewrite lookup_insert_eq.
    + destruct (pop1_all _) as [rcs|]; [|done]. intros Hr.
      rewrite (assign_regions_fields _ _ _ _ _ Hr Hidc).
      by rewrite lookup_insert_eq.
  - unfold second_token, _split_numbers. csimpl. rewrite Hx.
    destruct more; [|done]. intros _. simpl. by rewrite insert_empty.
  - intros Hall Hlen.
    destruct (pop1_all_second _ Hall) as (rcs & Hrcs & Hl & Hi).
    destruct (assign_regions_lookup rcs regions (<["idc" := first_token x]> ∅) Hnd)
      as (r & Hr & Hin & Hout); [unfold regions; simpl in *; lia|].
    exists r. split_and!.
    + unfold _split_numbers. rewrite Hrcs. csimpl. rewrite Hx.
      apply Forall_cons in Hall as [[rc Hrc] _]. unfold second_token in Hrc.
      rewrite Hx in Hrc. destruct more; [done|]. exact Hr.
    + rewrite Hout by done. by rewrite lookup_insert_eq.
    + intros i name Hname. rewrite (Hin i name Hname), <- Hi.
      destruct (rcs !! i); [done|].
      rewrite lookup_insert_ne, lookup_empty; [done|].
      intros <-. apply Hidc. by eapply list_elem_of_lookup_2.
Qed.

Lemma split_numbers_regions_witness :
  ∃ r, _split_numbers ["+1 242"; "+1 246"] = Ret r ∧
       r !! "idc" = Some "1" ∧
       r !! "region_a" = Some "242" ∧ r !! "region_b" = Some "246" ∧
       r !! "region_c" = None ∧ r !! "region_d" = None.
Proof.
  destruct (split_numbers_regions "+1 242" ["+1 246"]) as (_ & _ & H).
  destruct H as (r & Hr & Hidc & Hreg).
  - repeat constructor; by eexists.
  - simpl; lia.
  - exists r. split; [exact Hr|]. split; [exact Hidc|].
    split_and!.
    + exact (Hreg 0%nat "region_a" eq_refl).
    + exact (Hreg 1%nat "region_b" eq_refl).
    + exact (Hreg 2%nat "region_c" eq_refl).
    + exact (Hreg 3%nat "region_d" eq_refl).
Defined.

(** C2, as stated, fails twice: a fifth region code is not dropped, the call
    raises [IndexError]; and a second token in a later entry is not
    collected when the first entry has none. *)
Lemma split_numbers_regions_counterexample :
  _split_numbers ["+1 242"; "+1 246"; "+1 264"; "+1 268"; "+1 284"]
    = Raise IndexError ∧
  _split_numbers ["+7"; "+7 840"] = Ret {[ "idc" := "7" ]}.
Proof. split; by vm_compute. Qed.

(** ** Code Augmenter *)

Lemma map_numbers_loop_app byname h items1 items2 :
  map_numbers_loop byname h (items1 ++ items2) =
  match map_numbers_loop byname h items1 with
  | (h1, Ret _) => map_numbers_loop byname h1 items2
  | (h1, Raise e) => (h1, Raise e)
  end.
Proof.
  revert h. induction items1 as [|item items1 IH]; intros h; simpl; [done|].
  destruct (map_numbers_item byname h item) as [h1 [[]|e]]; [apply IH|done].
Qed.

Lemma map_numbers_item_frame byname h item h' r l f :
  map_numbers_item byname h item = (h', r) →
  f ∉ augment_fields → h' l !! f = h l !! f.
Proof.
  destruct item as [country numbers]. unfold map_numbers_item.
  intros Hitem Hf. revert Hitem.
  destruct (dict_get _ byname) as [data|].
  - destruct (_split_numbers _) as [r0|e] eqn:Hr0; intros [= <- <-]; [|done].
    apply update_other_field. by eapply split_numbers_fields.
  - destruct (length _ =? 1)%nat; [|by intros [= <- <-]].
    destruct (possible_countries _ _) as [|c ?]; [by intros [= <- <-]|].
    destruct (dict_get c byname) as [data|]; [|by intros [= <- <-]].
    destruct (_split_numbers _) as [r0|e] eqn:Hr0; intros [= <- <-]; [|done].
    apply update_other_field. by eapply split_numbers_fields.
Qed.

Lemma map_numbers_loop_frame byname items : ∀ h h' r l f,
  map_numbers_loop byname h items = (h', r) →
  f ∉ augment_fields → h' l !! f = h l !! f.
Proof.
  induction items as [|item items IH]; intros h h' r l f; simpl.
  - by intros [= <- <-].
  - destruct (map_numbers_item byname h item) as [h1 [[]|e]] eqn:Hitem.
    + intros Hloop Hf. rewrite (IH _ _ _ _ _ Hloop Hf).
      by eapply map_numbers_item_frame.
    + intros [= <- <-] Hf. by eapply map_numbers_item_frame.
Qed.

(** C6 (amended). An incoming name whose canonical form has no exact match
    among the blended names, and which is a substring of no blended name or
    of more than one, leaves every record as it was and raises nothing: the
    loop body returns the store it was given, and [map_numbers] gives the
    same result with or without that pair. *)
Theorem map_numbers_miss (h : heap) (data byname : dict loc)
    (pre post : dict (list string)) (country : string) (numbers : list string) :
  reindex h data "name" = Ret byname →
  dict_get (canonical_name country) byname = None →
  length (possible_countries byname (canonical_name country)) ≠ 1%nat →
  (∀ h', map_numbers_item byname h' (country, numbers) = (h', Ret tt)) ∧
  map_numbers h data (pre ++ (country, numbers) :: post) =
  map_numbers h data (pre ++ post).
Proof.
  intros Hbyname Hexact Hcand.
  assert (∀ h', map_numbers_item byname h' (country, numbers) = (h', Ret tt))
    as Hitem.
  { intros h'. unfold map_numbers_item.
    rewrite Hexact. by apply Nat.eqb_neq in Hcand as ->. }
  split; [exact Hitem|].
  unfold map_numbers. rewrite Hbyname, !map_numbers_loop_app.
  destruct (map_numbers_loop byname h pre) as [h1 [[]|e]]; [|done].
  cbn [map_numbers_loop]. by rewrite Hitem.
Qed.

(** C10. Frame of the Code Augmenter: whatever [map_numbers] does, raising
    or not, the blended dict it leaves is the one it was given, entry for
    entry, and in every record every field other than [idc] and [region_a]
    to [region_d] is as before; in particular [iso3], [iso2], [number] and
    [name]. *)
Theorem map_numbers_frame (h h' : heap) (data data' : dict loc)
    (country_codes : dict (list string)) (r : outcome unit) :
  map_numbers h data country_codes = (h', data', r) →
  data' = data ∧
  (∀ l f, f ∉ augment_fields → h' l !! f = h l !! f) ∧
  (∀ l, h' l !! "iso3" = h l !! "iso3" ∧ h' l !! "iso2" = h l !! "iso2" ∧
        h' l !! "number" = h l !! "number" ∧ h' l !! "name" = h l !! "name").
Proof.
  unfold map_numbers. intros Hmap.
  assert (data' = data ∧ ∀ l f, f ∉ augment_fields → h' l !! f = h l !! f)
    as [-> Hframe].
  { destruct (reindex h data "name") as [byname|e].
    - destruct (map_numbers_loop byname h country_codes) as [h1 r1] eqn:Hloop.
      injection Hmap as <- <- <-. split; [done|].
      intros l f Hf. by eapply map_numbers_loop_frame.
    - by injection Hmap as <- <- <-. }
  split_and!; [done|exact Hframe|].
  intros l. split_and!; apply Hframe; compute_done.
Qed.

(** ** The filter of [make_dataset] *)

Lemma drop_no_idc_spec h ks : ∀ blend,
  NoDup ks → (∀ k, k ∈ ks → k ∈ keys blend) →
  ∃ blend', drop_no_idc h ks blend = Ret blend' ∧
    ∀ K, dict_get K blend' =
         match dict_get K blend with
         | Some l =>
             if decide (K ∈ ks ∧ default "" (h l !! "idc") = "")
             then None else Some l
         | None => None
         end.
Proof.
  induction ks as [|k ks IH]; intros blend Hnd Hin; cbn [drop_no_idc].
  - exists blend. split; [done|]. intros K. destruct (dict_get K blend); [|done].
    rewrite decide_False; [done|]. intros [[]%elem_of_nil _].
  - apply NoDup_cons in Hnd as [Hk Hnd].
    destruct (dict_get k blend) as [l|] eqn:Hl.
    2:{ apply dict_get_None in Hl. destruct Hl. apply Hin. left. }
    case_decide as Hidc.
    + rewrite dict_del_present by (apply Hin; left).
      destruct (IH (dict_remove k blend) Hnd) as (blend' & -> & Hget).
      { intros k' Hk'. apply elem_of_keys_dict_remove. split; [by intros ->|].
        apply Hin. by right. }
      exists blend'. split; [done|]. intros K. rewrite Hget, dict_get_remove.
      case_decide as HK.
      * subst K. rewrite Hl. rewrite decide_True; [done|]. split; [left|done].
      * destruct (dict_get K blend) as [l'|]; [|done].
        apply decide_ext. rewrite elem_of_cons. tauto.
    + destruct (IH blend Hnd) as (blend' & -> & Hget).
      { intros k' Hk'. apply Hin. by right. }
      exists blend'. split; [done|]. intros K. rewrite Hget.
      destruct (dict_get K blend) as [l'|] eqn:Hl'; [|done].
      apply decide_ext. rewrite elem_of_cons.
      split; [tauto|]. intros [[->|?] ?]; [|tauto]. congruence.
Qed.

(** ** Blender: what every run preserves *)


Lemma kept_refl h : kept h h.
Proof. by intros l f. Qed.

Lemma kept_trans h1 h2 h3 : kept h1 h2 → kept h2 h3 → kept h1 h3.
Proof. intros H12 H23 l f ?. by apply H23, H12. Qed.

Lemma kept_store l f v h : kept h (store l f v h).
Proof. intros l' f'. apply store_is_Some. Qed.

Lemma kept_store_2 h h' l f v : kept h h' → kept h (store l f v h').
Proof. intros H. eapply kept_trans; [exact H|apply kept_store]. Qed.

Create HintDb blend.
#[local] Hint Resolve kept_refl kept_store kept_store_2 : blend.

Lemma blend_try_iso3_kept {U : Str.Upper} h und iso3 data h' p r :
  blend_try_iso3 h und iso3 data = (h', p, r) → kept h h'.
Proof.
  unfold blend_try_iso3. intros H.
  repeat case_match; simplify_eq; auto with blend.
Qed.

Lemma blend_try_number_kept {U : Str.Upper} h isonum newdata iso3 data p h' newdata' iso3' p' :
  blend_try_number h isonum newdata iso3 data p = (h', newdata', iso3', p') →
  kept h h'.
Proof.
  unfold blend_try_number. intros H.
  repeat case_match; simplify_eq; auto with blend.
Qed.

Lemma blend_try_number_keys {U : Str.Upper} h isonum newdata iso3 data p h' newdata' iso3' p' :
  blend_try_number h isonum newdata iso3 data p = (h', newdata', iso3', p') →
  NoDup (keys newdata) → NoDup (keys newdata').
Proof.
  unfold blend_try_number. intros H Hnd.
  repeat case_match; simplify_eq; auto using NoDup_keys_dict_set.
  match goal with H : dict_del _ _ = Some _ |- _ => apply dict_del_Some in H as -> end.
  auto using NoDup_keys_dict_set, NoDup_keys_dict_remove.
Qed.

Lemma blend_item_kept {U : Str.Upper} und isonum st item :
  kept (bs_heap st) (bs_heap (blend_item und isonum st item)).
Proof.
  destruct item as [iso3 data]. unfold blend_item.
  destruct (blend_try_iso3 _ _ _ _) as [[h1 p1] r1] eqn:E1.
  apply blend_try_iso3_kept in E1. destruct r1 as [[]|e]; simpl; [done|].
  destruct (blend_try_number _ _ _ _ _ _) as [[[h2 nd2] k2] p2] eqn:E2.
  apply blend_try_number_kept in E2. simpl. by eapply kept_trans.
Qed.

Lemma blend_item_keys {U : Str.Upper} und isonum st item :
  NoDup (keys (bs_newdata st)) →
  NoDup (keys (bs_newdata (blend_item und isonum st item))).
Proof.
  destruct item as [iso3 data]. unfold blend_item. intros Hnd.
  destruct (blend_try_iso3 _ _ _ _) as [[h1 p1] r1] eqn:E1.
  destruct r1 as [[]|e]; simpl; [by apply NoDup_keys_dict_set|].
  destruct (blend_try_number _ _ _ _ _ _) as [[[h2 nd2] k2] p2] eqn:E2.
  simpl. apply NoDup_keys_dict_set. by eapply blend_try_number_keys.
Qed.

Lemma blend_loop_kept {U : Str.Upper} und isonum items : ∀ st,
  kept (bs_heap st) (bs_heap (fold_left (blend_item und isonum) items st)).
Proof.
  induction items as [|item items IH]; intros st; simpl; [apply kept_refl|].
  eapply kept_trans; [apply blend_item_kept|apply IH].
Qed.

Lemma blend_loop_keys {U : Str.Upper} und isonum items : ∀ st,
  NoDup (keys (bs_newdata st)) →
  NoDup (keys (bs_newdata (fold_left (blend_item und isonum) items st))).
Proof.
  induction items as [|item items IH]; intros st Hnd; simpl; [done|].
  by apply IH, blend_item_keys.
Qed.

Lemma elem_of_missing_keys k und newdata :
  k ∈ missing_keys und newdata ↔ k ∈ keys und ∧ k ∉ keys newdata.
Proof.
  unfold missing_keys. by rewrite list_elem_of_difference, elem_of_remove_dups.
Qed.

(** The second loop: it never raises when every primary record has a name;
    it adds the missing keys with their primary records, writes only [iso2]
    and [name], and only in primary records. *)
Lemma blend_missing_spec {U : Str.Upper} und missing : ∀ st,
  (∀ k, k ∈ missing → k ∈ keys und) →
  (∀ l, l ∈ values und → is_Some (bs_heap st l !! "name")) →
  ∃ h' blend patched,
    blend_missing und missing st = (h', Ret (blend, patched)) ∧
    (∀ K, dict_get K blend =
          if decide (K ∈ missing) then dict_get K und
          else dict_get K (bs_newdata st)) ∧
    (∀ l, l ∉ values und → h' l = bs_heap st l) ∧
    (∀ l f, f ≠ "iso2" → f ≠ "name" → h' l !! f = bs_heap st l !! f) ∧
    (∀ l, l ∈ patched ↔
          l ∈ bs_patched st ∨ ∃ k, k ∈ missing ∧ dict_get k und = Some l) ∧
    (NoDup (keys (bs_newdata st)) → NoDup (keys blend)).
Proof.
  induction missing as [|k missing IH]; intros st Hin Hname; cbn [blend_missing].
  - eexists _, _, _. split_and!; [done| |done|done| |done].
    + intros K. rewrite decide_False; [done|]. by intros ?%elem_of_nil.
    + intros l. split; [by left|]. intros [?|(k & []%elem_of_nil & _)]. done.
  - destruct (dict_get k und) as [data|] eqn:Hdata.
    2:{ apply dict_get_None in Hdata. destruct Hdata. apply Hin. left. }
    assert (data ∈ values und) as Hdata_in.
    { apply dict_get_elem_of in Hdata. apply list_elem_of_fmap. by exists (k, data). }
    destruct (Hname data Hdata_in) as [nm Hnm].
    rewrite store_field_other by done. rewrite Hnm.
    set (h1 := store data "name" (Str.upper nm) (store data "iso2" "" (bs_heap st))).
    destruct (IH (BlendState h1 (dict_set k data (bs_newdata st))
                    (bs_patched st ++ [data])))
      as (h' & blend & patched & -> & Hget & Hout & Hfld & Hpat & Hnd).
    { intros k' Hk'. apply Hin. by right. }
    { intros l Hl. simpl. unfold h1. by apply store_is_Some, store_is_Some, Hname. }
    simpl in *. eexists _, _, _. split_and!; [done|..].
    + intros K. rewrite Hget, dict_get_set.
      destruct (decide (K = k)) as [->|HK].
      * rewrite Hdata.
        destruct (decide (k ∈ k :: missing)) as [_|Hn]; [|destruct Hn; left].
        by destruct (decide (k ∈ missing)).
      * apply decide_ext. rewrite elem_of_cons. tauto.
    + intros l Hl. rewrite Hout by done. unfold h1.
      rewrite !store_other; [done|by intros ->..].
    + intros l f Hf1 Hf2. rewrite Hfld by done. unfold h1.
      by rewrite !store_field_other.
    + intros l. rewrite Hpat, elem_of_app, list_elem_of_singleton. split.
      * intros [[?| ->]|(k' & Hk' & Hl)]; [by left| |].
        -- right. exists k. split; [left|done].
        -- right. exists k'. split; [by right|done].
      * intros [?|(k' & [->|Hk']%elem_of_cons & Hl)]; [by left; left| |].
        -- left; right. congruence.
        -- right. by exists k'.
    + intros Hnd0. by apply Hnd, NoDup_keys_dict_set.
Qed.

(** Every entry of the blended dict after the first loop holds a broad
    record. *)
Lemma blend_try_number_entries {U : Str.Upper} h isonum newdata iso3 data p h' newdata' iso3' p' :
  blend_try_number h isonum newdata iso3 data p = (h', newdata', iso3', p') →
  ∀ k l, (k, l) ∈ newdata' → (k, l) ∈ newdata ∨ l = data.
Proof.
  unfold blend_try_number. intros H k l.
  repeat case_match; simplify_eq; auto.
  - match goal with H : dict_del _ _ = Some _ |- _ => apply dict_del_Some in H as -> end.
    intros [[_ ->]|?]%elem_of_dict_remove%elem_of_dict_set; auto.
  - intros [[_ ->]|?]%elem_of_dict_set; auto.
Qed.

Lemma blend_item_entries {U : Str.Upper} und isonum st k0 data k l :
  (k, l) ∈ bs_newdata (blend_item und isonum st (k0, data)) →
  (k, l) ∈ bs_newdata st ∨ l = data.
Proof.
  unfold blend_item.
  destruct (blend_try_iso3 _ _ _ _) as [[h1 p1] r1] eqn:E1.
  destruct r1 as [[]|e]; simpl.
  - intros [[_ ->]|?]%elem_of_dict_set; auto.
  - destruct (blend_try_number _ _ _ _ _ _) as [[[h2 nd2] k2] p2] eqn:E2.
    simpl. intros [[_ ->]|Hin]%elem_of_dict_set; [by right|].
    by eapply blend_try_number_entries.
Qed.

Lemma blend_loop_entries {U : Str.Upper} und isonum items : ∀ st k l,
  (k, l) ∈ bs_newdata (fold_left (blend_item und isonum) items st) →
  (k, l) ∈ bs_newdata st ∨ l ∈ values items.
Proof.
  induction items as [|[k0 data] items IH]; intros st k l; simpl; [by left|].
  intros [[?| ->]%blend_item_entries|Hin]%IH.
  - by left.
  - right. unfold values. csimpl. left.
  - right. unfold values in *. csimpl. by right.
Qed.

(** What the second loop leaves in the records it inserts: an empty [iso2]
    and a name in upper case. *)
Lemma blend_missing_inserted {U : Str.Upper} und missing : ∀ st h' blend patched,
  blend_missing und missing st = (h', Ret (blend, patched)) →
  (∀ l, bs_heap st l !! "iso2" = Some "" → h' l !! "iso2" = Some "") ∧
  (∀ l, (∃ nm, bs_heap st l !! "name" = Some (Str.upper nm)) →
        ∃ nm, h' l !! "name" = Some (Str.upper nm)) ∧
  (∀ k l, k ∈ missing → dict_get k und = Some l →
          h' l !! "iso2" = Some "" ∧ ∃ nm, h' l !! "name" = Some (Str.upper nm)).
Proof.
  induction missing as [|k missing IH]; intros st h' blend patched;
    cbn [blend_missing].
  - intros [= <- <- <-]. split_and!; [done|done|]. by intros k l ?%elem_of_nil.
  - destruct (dict_get k und) as [data|] eqn:Hdata; [|done].
    destruct (_ !! "name") as [nm|] eqn:Hnm; [|done].
    intros (Hiso2 & Hname & Hins)%IH. simpl in *.
    assert (h' data !! "iso2" = Some "" ∧
            ∃ nm', h' data !! "name" = Some (Str.upper nm')) as Hdata'.
    { split.
      - apply Hiso2. rewrite store_field_other by done.
        by rewrite store_same, lookup_insert_eq.
      - apply Hname. exists nm. by rewrite store_same, lookup_insert_eq. }
    split_and!.
    + intros l Hl. apply Hiso2. rewrite store_field_other by done.
      unfold store. case_decide; [|done]. subst. by rewrite lookup_insert_eq.
    + intros l [nm' Hl]. apply Hname. unfold store at 1.
      case_decide; [|by rewrite store_field_other; eauto].
      subst. rewrite lookup_insert_eq. by eauto.
    + intros k' l [->|Hk']%elem_of_cons Hl; [|by eapply Hins].
      by assert (l = data) as -> by congruence.
Qed.

(** Whatever the two data sets share, when every primary record has a
    [number] and a [name] the Blender returns, and every ISO3 key of the
    primary data set is a key of the blended dict, held by a broad record or
    by the primary record of that key. *)
Lemma blend_covers_primary {U : Str.Upper} (h : heap) (und wad : dict loc) :
  Forall (fun l => is_Some (h l !! "number") ∧ is_Some (h l !! "name"))
         (values und) →
  ∃ h' blend patched,
    blend_un_wad h und wad = (h', Ret (blend, patched)) ∧
    ∀ iso3, iso3 ∈ keys und →
      ∃ l, dict_get iso3 blend = Some l ∧
           (l ∈ values wad ∨
            (dict_get iso3 und = Some l ∧ h' l !! "iso2" = Some "" ∧
             (∃ nm, h' l !! "name" = Some (Str.upper nm)) ∧ l ∈ patched)).
Proof.
  intros Hund. unfold blend_un_wad.
  destruct (reindex_loop_total h "number" (values und) []) as [isonum Hisonum].
  { eapply Forall_impl; [exact Hund|]. by intros l [? _]. }
  unfold reindex. rewrite Hisonum.
  set (st := fold_left _ _ _).
  destruct (blend_missing_spec und (missing_keys und (bs_newdata st)) st)
    as (h' & blend & patched & Hrun & Hget & _ & _ & Hpat & _).
  { by intros k [? _]%elem_of_missing_keys. }
  { intros l Hl. apply (blend_loop_kept und isonum wad (BlendState h wad [])).
    rewrite Forall_forall in Hund. by apply Hund. }
  destruct (blend_missing_inserted _ _ _ _ _ _ Hrun) as (_ & _ & Hins).
  exists h', blend, patched. split; [exact Hrun|].
  intros iso3 Hiso3. rewrite Hget. case_decide as Hmiss.
  - apply dict_get_is_Some in Hiso3 as [l Hl]. exists l. split; [done|].
    right. destruct (Hins iso3 l Hmiss Hl) as [? ?]. split_and!; try done.
    apply Hpat. right. by exists iso3.
  - destruct (decide (iso3 ∈ keys (bs_newdata st))) as [Hin|Hno].
    2:{ destruct Hmiss. by apply elem_of_missing_keys. }
    apply dict_get_is_Some in Hin as [l Hl]. exists l. split; [done|]. left.
    apply dict_get_elem_of in Hl.
    apply (blend_loop_entries und isonum wad (BlendState h wad [])) in Hl
      as [Hl|Hl]; [|done].
    simpl in Hl. unfold values. apply list_elem_of_fmap. by exists (iso3, l).
Qed.

(** ** Blender: the first loop on data as the adapters deliver it *)

Section BlendLoop.
Context {U : Str.Upper}.
Variables (h0 : heap) (und wad isonum : dict loc).
Hypothesis Hisonum : reindex h0 und "number" = Ret isonum.
Hypothesis Hfresh : NoDup (values und ++ values wad).
Hypothesis Hwad_keys : NoDup (keys wad).
Hypothesis Hund_fields :
  Forall (fun l => is_Some (h0 l !! "number") ∧ is_Some (h0 l !! "name") ∧
                   is_Some (h0 l !! "iso3")) (values und).
Hypothesis Hwad_fields :
  Forall (fun l => is_Some (h0 l !! "number") ∧ is_Some (h0 l !! "name"))
         (values wad).

Lemma und_wad_apart ul l : ul ∈ values und → l ∈ values wad → ul ≠ l.
Proof.
  intros Hul Hl ->. apply NoDup_app in Hfresh as (_ & Hdisj & _).
  by apply (Hdisj l).
Qed.

Lemma blend_item_spec st k l :
  l ∈ values wad →
  bs_heap st l = h0 l →
  (∀ ul, ul ∈ values und → bs_heap st ul = h0 ul) →
  k ∈ keys (bs_newdata st) →
  bs_heap (blend_item und isonum st (k, l)) l
    = blended_record h0 und isonum (k, l) ∧
  (∀ l', l' ≠ l →
     bs_heap (blend_item und isonum st (k, l)) l' = bs_heap st l') ∧
  (∀ K, dict_get K (bs_newdata (blend_item und isonum st (k, l)))
        = settle h0 und isonum K (dict_get K (bs_newdata st)) (k, l)) ∧
  bs_patched (blend_item und isonum st (k, l))
    = bs_patched st ++ (if is_patched h0 und isonum (k, l) then [l] else []).
Proof.
  intros Hl Hhl Hund Hk.
  pose proof Hwad_fields as Hf. rewrite Forall_forall in Hf.
  destruct (Hf l Hl) as [[dnum Hdnum] [dname Hdname]]. clear Hf.
  pose proof Hund_fields as Hf. rewrite Forall_forall in Hf.
  unfold blend_item, blend_try_iso3, settle, blended_record, is_patched,
    resolved_key, route_of, field. cbn [fst snd].
  destruct (dict_get k und) as [ul|] eqn:Hul.
  - assert (ul ∈ values und) as Hul_in.
    { apply dict_get_elem_of in Hul. apply list_elem_of_fmap. by exists (k, ul). }
    destruct (Hf ul Hul_in) as ([unum Hunum] & [unm Hunm] & _).
    rewrite (Hund ul Hul_in), Hhl, Hunm, Hdnum, Hunum, Hdname. cbn.
    split_and!.
    + by rewrite !store_same, Hhl.
    + intros l' Hl'. by rewrite !store_other.
    + intros K. rewrite dict_get_set. by repeat case_decide.
    + destruct (_ || _); [done|by rewrite app_nil_r].
  - unfold blend_try_number. rewrite Hhl, Hdnum. cbn.
    destruct (dict_get dnum isonum) as [ul|] eqn:Hul'.
    + destruct (reindex_lookup _ _ _ _ _ _ Hisonum Hul') as [Hul_in _].
      destruct (Hf ul Hul_in) as (_ & [unm Hunm] & [k' Hk']).
      assert (ul ≠ l) as Hne by by apply und_wad_apart.
      rewrite (Hund ul Hul_in), Hk'.
      rewrite store_other, (Hund ul Hul_in), Hunm by done.
      rewrite dict_del_present by (apply elem_of_keys_dict_set; by right).
      cbn. split_and!.
      * by rewrite !store_same, Hhl.
      * intros l' Hl'. by rewrite !store_other.
      * intros K. rewrite dict_get_set, dict_get_remove, dict_get_set.
        by repeat case_decide.
      * done.
    + cbn. split_and!; [done|done| |by rewrite app_nil_r].
      intros K. rewrite dict_get_set. by repeat case_decide.
Qed.


Lemma settled_inert K items acc :
  (∀ item, item ∈ items →
     resolved_key h0 und isonum item ≠ K ∧ item.1 ≠ K) →
  settled h0 und isonum K items acc = acc.
Proof.
  unfold settled. revert acc.
  induction items as [|item items IH]; intros acc Hitems; simpl; [done|].
  rewrite IH by (intros; apply Hitems; by right).
  destruct (Hitems item) as [H1 H2]; [left|]. unfold settle.
  by rewrite !decide_False.
Qed.

Lemma settled_is_Some K items acc :
  (∀ item, item ∈ items → item.1 = K → resolved_key h0 und isonum item = K) →
  is_Some acc → is_Some (settled h0 und isonum K items acc).
Proof.
  unfold settled. revert acc.
  induction items as [|item items IH]; intros acc Hitems Hacc; simpl; [done|].
  apply IH; [intros ? ? ?; apply Hitems; [by right|done]|].
  unfold settle. case_decide as H1; [by eauto|].
  case_decide as H2; [|done]. destruct H1. symmetry. apply Hitems; [left|done].
Qed.

Lemma settled_Some K items acc l :
  settled h0 und isonum K items acc = Some l →
  (∃ k, (k, l) ∈ items ∧ resolved_key h0 und isonum (k, l) = K) ∨
  (acc = Some l ∧ ∀ item, item ∈ items → item.1 ≠ K).
Proof.
  unfold settled. revert acc.
  induction items as [|item items IH]; intros acc; simpl.
  - intros ->. right. split; [done|]. by intros ? ?%elem_of_nil.
  - intros [(k & Hk & Hrk)|[Hacc Hkeys]]%IH.
    + left. exists k. split; [by right|done].
    + unfold settle in Hacc. destruct item as [k0 l0]. simpl in *.
      case_decide as H1.
      * injection Hacc as ->. left. exists k0. split; [left|done].
      * case_decide as H2; [done|]. right. split; [done|].
        intros item [->|?]%elem_of_cons; [done|by apply Hkeys].
Qed.

Lemma settled_cons K item items acc :
  settled h0 und isonum K (item :: items) acc
  = settled h0 und isonum K items (settle h0 und isonum K acc item).
Proof. done. Qed.

Lemma settled_app K items1 items2 acc :
  settled h0 und isonum K (items1 ++ items2) acc = settled h0 und isonum K items2 (settled h0 und isonum K items1 acc).
Proof. unfold settled. apply fold_left_app. Qed.


Lemma loop_inv_init : loop_inv h0 und wad isonum [] (BlendState h0 wad []).
Proof.
  split_and!; [|done..]. by intros k l ?%elem_of_nil.
Qed.

Lemma loop_inv_step done_ k l rest st :
  wad = done_ ++ (k, l) :: rest →
  loop_inv h0 und wad isonum done_ st →
  loop_inv h0 und wad isonum (done_ ++ [(k, l)]) (blend_item und isonum st (k, l)).
Proof.
  intros Hwad (Hdone & Hrest & Hget & Hpat).
  assert (NoDup (values wad)) as Hvals.
  { by apply NoDup_app in Hfresh as (_ & _ & ?). }
  assert (l ∈ values wad) as Hl.
  { rewrite Hwad. unfold values. rewrite fmap_app, fmap_cons.
    apply elem_of_app. right. left. }
  assert (l ∉ values done_) as Hl_new.
  { rewrite Hwad in Hvals. unfold values in *.
    rewrite fmap_app, fmap_cons in Hvals.
    apply NoDup_app in Hvals as (_ & Hdisj & _).
    intros Hin. apply (Hdisj l Hin). left. }
  assert (k ∉ keys done_) as Hk_new.
  { pose proof Hwad_keys as Hkeys. rewrite Hwad in Hkeys. unfold keys in *.
    rewrite fmap_app, fmap_cons in Hkeys.
    apply NoDup_app in Hkeys as (_ & Hdisj & _).
    intros Hin. apply (Hdisj k Hin). left. }
  destruct (blend_item_spec st k l) as (Hl' & Hother & Hget' & Hpat').
  - done.
  - by apply Hrest.
  - intros ul Hul. apply Hrest. intros Hin.
    apply (und_wad_apart ul ul); [done| |done].
    rewrite Hwad. unfold values in *. rewrite fmap_app.
    apply elem_of_app. by left.
  - apply dict_get_is_Some. rewrite Hget. apply settled_is_Some.
    + intros [k1 l1] Hin Hk1. simpl in Hk1. subst k1. destruct Hk_new.
      apply list_elem_of_fmap. by exists (k, l1).
    + exists l. apply elem_of_dict_get; [done|].
      rewrite Hwad. apply elem_of_app. right. left.
  - split_and!.
    + intros k1 l1 [Hin|Heq%list_elem_of_singleton]%elem_of_app.
      * rewrite Hother; [by apply Hdone|]. intros ->. apply Hl_new.
        apply list_elem_of_fmap. by exists (k1, l).
      * injection Heq as -> ->. exact Hl'.
    + intros l1 Hl1. unfold values in Hl1. rewrite fmap_app in Hl1.
      apply not_elem_of_app in Hl1 as [Hl1 Hl1'].
      rewrite Hother; [by apply Hrest|].
      intros ->. apply Hl1'. left.
    + intros K. rewrite Hget', Hget, settled_app. done.
    + rewrite Hpat', Hpat, filter_app, fmap_app. f_equal.
      rewrite filter_cons, filter_nil.
      destruct (is_patched h0 und isonum (k, l)); by case_decide.
Qed.

Lemma blend_loop_inv rest : ∀ done_ st,
  wad = done_ ++ rest → loop_inv h0 und wad isonum done_ st →
  loop_inv h0 und wad isonum wad (fold_left (blend_item und isonum) rest st).
Proof.
  induction rest as [|[k l] rest IH]; intros done_ st Hwad Hinv; simpl.
  - rewrite app_nil_r in Hwad. by rewrite <- Hwad in Hinv.
  - apply (IH (done_ ++ [(k, l)])).
    + by rewrite <- app_assoc.
    + by eapply loop_inv_step.
Qed.

Lemma blend_loop_spec :
  loop_inv h0 und wad isonum wad (fold_left (blend_item und isonum) wad (BlendState h0 wad [])).
Proof. apply (blend_loop_inv wad []); [done|apply loop_inv_init]. Qed.

End BlendLoop.

(** ** Blender: the whole run on data as the adapters deliver it *)

Lemma iso3_keyed_elem h d k l :
  iso3_keyed h d → (k, l) ∈ d →
  h l !! "iso3" = Some k ∧ is_Some (h l !! "number") ∧ is_Some (h l !! "name").
Proof. unfold iso3_keyed. rewrite Forall_forall. intros H Hin. exact (H _ Hin). Qed.

Lemma elem_of_values {V} (d : dict V) (v : V) : v ∈ values d ↔ ∃ k, (k, v) ∈ d.
Proof.
  unfold values. rewrite list_elem_of_fmap. split.
  - intros ([k v'] & -> & Hin). by exists k.
  - intros [k Hin]. by exists (k, v).
Qed.

Lemma elem_of_keys {V} (d : dict V) (k : string) : k ∈ keys d ↔ ∃ v, (k, v) ∈ d.
Proof.
  unfold keys. rewrite list_elem_of_fmap. split.
  - intros ([k' v] & -> & Hin). by exists v.
  - intros [v Hin]. by exists (k, v).
Qed.

Lemma values_key_unique {V} (d : dict V) k1 k2 v :
  NoDup (values d) → (k1, v) ∈ d → (k2, v) ∈ d → k1 = k2.
Proof.
  unfold values. induction d as [|[k0 v0] d IH]; csimpl.
  - by intros _ ?%elem_of_nil.
  - intros [Hv0 Hnd]%NoDup_cons [[= -> ->]|H1]%elem_of_cons [[= ->]|H2]%elem_of_cons.
    + done.
    + destruct Hv0. apply elem_of_values. by exists k2.
    + subst. destruct Hv0. apply elem_of_values. by exists k1.
    + by apply IH.
Qed.

Lemma keys_value_unique {V} (d : dict V) k v1 v2 :
  NoDup (keys d) → (k, v1) ∈ d → (k, v2) ∈ d → v1 = v2.
Proof.
  intros Hnd H1 H2. apply (elem_of_dict_get _ _ _ Hnd) in H1, H2. congruence.
Qed.

Lemma blend_un_wad_spec {U : Str.Upper} h und wad :
  source_data h und wad →
  ∃ isonum h' blend patched,
    reindex h und "number" = Ret isonum ∧
    blend_un_wad h und wad = (h', Ret (blend, patched)) ∧
    (∀ k l, (k, l) ∈ wad → h' l = blended_record h und isonum (k, l)) ∧
    (∀ l f, l ∈ values und → f ≠ "iso2" → f ≠ "name" → h' l !! f = h l !! f) ∧
    (∀ K, dict_get K blend =
          match settled h und isonum K wad (dict_get K wad) with
          | Some l => Some l
          | None => dict_get K und
          end) ∧
    (∀ l, l ∈ patched ↔
          (∃ k, (k, l) ∈ wad ∧ is_patched h und isonum (k, l) = true) ∨
          (∃ k, dict_get k und = Some l ∧
                settled h und isonum k wad (dict_get k wad) = None)) ∧
    NoDup (keys blend).
Proof.
  intros [Hund_keys Hwad_keys Hfresh Hund Hwad].
  assert (Forall (fun l => is_Some (h l !! "number") ∧ is_Some (h l !! "name") ∧
                           is_Some (h l !! "iso3")) (values und)) as Hund_fields.
  { apply Forall_forall. intros l [k Hkl]%elem_of_values.
    destruct (iso3_keyed_elem _ _ _ _ Hund Hkl) as (? & ? & ?). by eauto. }
  assert (Forall (fun l => is_Some (h l !! "number") ∧ is_Some (h l !! "name"))
                 (values wad)) as Hwad_fields.
  { apply Forall_forall. intros l [k Hkl]%elem_of_values.
    destruct (iso3_keyed_elem _ _ _ _ Hwad Hkl) as (? & ? & ?). by eauto. }
  destruct (reindex_loop_total h "number" (values und) []) as [isonum Hisonum].
  { eapply Forall_impl; [exact Hund_fields|]. by intros l [? _]. }
  fold (reindex h und "number") in Hisonum.
  destruct (blend_loop_spec h und wad isonum Hisonum Hfresh Hwad_keys
              Hund_fields Hwad_fields) as (Hdone & Hrest & Hget & Hpat).
  set (st := fold_left (blend_item und isonum) wad (BlendState h wad [])) in *.
  assert (∀ ul, ul ∈ values und → bs_heap st ul = h ul) as Hund_same.
  { intros ul Hul. apply Hrest. intros Hin.
    by apply (und_wad_apart und wad Hfresh ul ul). }
  destruct (blend_missing_spec und (missing_keys und (bs_newdata st)) st)
    as (h' & blend & patched & Hrun & Hget' & Hout & Hfld & Hpat' & Hnd).
  { by intros k [? _]%elem_of_missing_keys. }
  { intros l Hl. rewrite Hund_same by done.
    rewrite Forall_forall in Hund_fields. by apply Hund_fields. }
  exists isonum, h', blend, patched. split_and!.
  - done.
  - unfold blend_un_wad. rewrite Hisonum. exact Hrun.
  - intros k l Hkl. rewrite Hout; [by apply Hdone|].
    intros Hin. apply (und_wad_apart und wad Hfresh l l); [done| |done].
    apply elem_of_values. by exists k.
  - intros l f Hl Hf1 Hf2. rewrite Hfld by done. by rewrite Hund_same.
  - intros K. rewrite Hget'. rewrite <- Hget. case_decide as Hmiss.
    + apply elem_of_missing_keys in Hmiss as [_ HK].
      apply dict_get_None in HK. by rewrite HK.
    + destruct (dict_get K (bs_newdata st)) as [l|] eqn:HK; [done|].
      symmetry. apply dict_get_None. intros Hin. apply Hmiss.
      apply elem_of_missing_keys. split; [done|]. by apply dict_get_None.
  - intros l. rewrite Hpat', Hpat. split.
    + intros [([k l'] & -> & [Hp Hin]%list_elem_of_filter)%list_elem_of_fmap
             |(k & [_ Hk]%elem_of_missing_keys & Hl)].
      * left. by exists k.
      * right. exists k. split; [done|]. rewrite <- Hget. by apply dict_get_None.
    + intros [(k & Hin & Hp)|(k & Hl & Hk)].
      * left. apply list_elem_of_fmap. exists (k, l). split; [done|].
        by apply list_elem_of_filter.
      * right. exists k. split; [|done]. apply elem_of_missing_keys. split.
        -- apply dict_get_is_Some. by eauto.
        -- apply dict_get_None. by rewrite Hget.
  - apply Hnd. by apply blend_loop_keys.
Qed.

Lemma field_Some h l f : is_Some (h l !! f) → h l !! f = Some (field h l f).
Proof. unfold field. by intros [v ->]. Qed.

Lemma route_of_Merge h und isonum k l ul :
  dict_get k und = Some ul → route_of h und isonum (k, l) = Merge ul.
Proof. unfold route_of. simpl. by intros ->. Qed.

Lemma route_of_inv h und isonum k l :
  match route_of h und isonum (k, l) with
  | Merge ul => dict_get k und = Some ul
  | Adopt ul =>
      dict_get k und = None ∧
      ∃ n, h l !! "number" = Some n ∧ dict_get n isonum = Some ul
  | Keep =>
      dict_get k und = None ∧
      ∀ n, h l !! "number" = Some n → dict_get n isonum = None
  end.
Proof.
  unfold route_of. simpl. destruct (dict_get k und) as [ul|]; [done|].
  destruct (h l !! "number") as [n|]; simpl.
  - destruct (dict_get n isonum) as [ul|] eqn:E.
    + split; [done|]. by exists n.
    + split; [done|]. by intros ? [= <-].
  - split; [done|]. done.
Qed.

Section SourceData.
Context {U : Str.Upper}.
Variables (h : heap) (und wad isonum : dict loc).
Hypothesis Hsd : source_data h und wad.
Hypothesis Hisonum : reindex h und "number" = Ret isonum.

(** The record the number index holds for [n] is a primary record with
    that number, stored in [und] under its own ISO3. *)
Lemma isonum_primary n ul :
  dict_get n isonum = Some ul →
  ∃ kp, (kp, ul) ∈ und ∧ dict_get kp und = Some ul ∧
        h ul !! "iso3" = Some kp ∧ h ul !! "number" = Some n ∧
        is_Some (h ul !! "name").
Proof.
  intros Hul. destruct (reindex_lookup _ _ _ _ _ _ Hisonum Hul) as [Hin Hn].
  apply elem_of_values in Hin as [kp Hkp]. exists kp.
  destruct (iso3_keyed_elem _ _ _ _ (sd_und _ _ _ Hsd) Hkp) as (? & ? & ?).
  split_and!; try done. apply elem_of_dict_get; [|done]. apply Hsd.
Qed.

(** A broad record that ends up under a primary ISO3 carries that primary
    record's number and uppercased name. *)
Lemma resolved_to_primary k l K undata :
  (k, l) ∈ wad → resolved_key h und isonum (k, l) = K →
  dict_get K und = Some undata →
  blended_record h und isonum (k, l) !! "number" = h undata !! "number" ∧
  blended_record h und isonum (k, l) !! "name"
    = Str.upper <$> h undata !! "name".
Proof.
  intros Hkl Hrk HK. unfold resolved_key, blended_record in *.
  pose proof (route_of_inv h und isonum k l) as Hroute.
  assert ((K, undata) ∈ und) as Hin by by apply dict_get_elem_of.
  destruct (iso3_keyed_elem _ _ _ _ (sd_und _ _ _ Hsd) Hin) as (_ & Hnum & Hnm).
  destruct (route_of h und isonum (k, l)) as [ul|ul|]; simpl in *.
  - subst K. assert (ul = undata) as -> by congruence.
    rewrite lookup_insert_ne, lookup_insert_eq, lookup_insert_eq by done.
    rewrite (field_Some _ _ _ Hnum), (field_Some _ _ _ Hnm). done.
  - destruct Hroute as (_ & n & Hn & Hul).
    destruct (isonum_primary n ul Hul) as (kp & _ & Hkp & Hiso3 & Hnum' & _).
    assert (kp = K) as -> by (unfold field in Hrk; by rewrite Hiso3 in Hrk).
    assert (ul = undata) as -> by congruence.
    rewrite !lookup_insert_ne, lookup_insert_eq by done.
    rewrite Hn, Hnum', (field_Some _ _ _ Hnm). done.
  - subst K. destruct Hroute as [Hnone _]. congruence.
Qed.

(** An entry of the blended dict that comes from the first loop is a
    broad record that resolved to that key. *)
Lemma settled_from_wad K l :
  settled h und isonum K wad (dict_get K wad) = Some l →
  ∃ k, (k, l) ∈ wad ∧ resolved_key h und isonum (k, l) = K.
Proof.
  intros [?|[Hacc Hkeys]]%settled_Some; [done|].
  apply dict_get_elem_of in Hacc. by destruct (Hkeys _ Hacc).
Qed.

End SourceData.

(** C1. Blender, shared ISO3: for a broad record whose ISO3 key is also a key
    of the primary data set, the record blended under that ISO3 has the
    primary's number and the primary's name uppercased, the broad record
    itself has been overwritten with them, and the broad record is in the
    patched list exactly when its number or its name differed from the
    primary's number or uppercased name. *)
Theorem blend_shared_iso3 {U : Str.Upper} (h : heap) (und wad : dict loc)
    (iso3 : string) (data undata : loc) :
  source_data h und wad →
  (iso3, data) ∈ wad → (iso3, undata) ∈ und →
  ∃ h' blend patched,
    blend_un_wad h und wad = (h', Ret (blend, patched)) ∧
    (∃ l, dict_get iso3 blend = Some l ∧
          h' l !! "number" = h undata !! "number" ∧
          h' l !! "name" = Str.upper <$> h undata !! "name") ∧
    h' data !! "number" = h undata !! "number" ∧
    h' data !! "name" = Str.upper <$> h undata !! "name" ∧
    (data ∈ patched ↔
       h data !! "number" ≠ h undata !! "number" ∨
       h data !! "name" ≠ Str.upper <$> h undata !! "name").
Proof.
  intros Hsd Hdata Hundata.
  destruct (blend_un_wad_spec h und wad Hsd)
    as (isonum & h' & blend & patched & Hisonum & Hrun & Hrec & _ & Hget & Hpat & _).
  exists h', blend, patched. split; [exact Hrun|].
  assert (dict_get iso3 und = Some undata) as Hund.
  { apply elem_of_dict_get; [apply Hsd|done]. }
  assert (dict_get iso3 wad = Some data) as Hwad.
  { apply elem_of_dict_get; [apply Hsd|done]. }
  pose proof (route_of_Merge h und isonum iso3 data undata Hund) as Hroute.
  assert (resolved_key h und isonum (iso3, data) = iso3) as Hrk.
  { unfold resolved_key. by rewrite Hroute. }
  destruct (iso3_keyed_elem _ _ _ _ (sd_und _ _ _ Hsd) Hundata)
    as (_ & Hunum & Hunm).
  destruct (iso3_keyed_elem _ _ _ _ (sd_wad _ _ _ Hsd) Hdata)
    as (_ & Hdnum & Hdnm).
  split_and!.
  - destruct (settled_is_Some h und isonum iso3 wad (dict_get iso3 wad))
      as [l Hl].
    { intros [k1 l1] Hin Hk1. simpl in Hk1. subst k1.
      assert (l1 = data) as ->.
      { eapply (keys_value_unique wad); [apply (sd_wad_keys _ _ _ Hsd)|done..]. }
      done. }
    { by eauto. }
    exists l. rewrite Hget, Hl. split; [done|].
    destruct (settled_from_wad h und wad isonum iso3 l Hl) as (k & Hkl & Hk).
    rewrite (Hrec k l Hkl).
    by apply (resolved_to_primary h und wad isonum Hsd Hisonum k l iso3).
  - rewrite (Hrec iso3 data Hdata).
    by apply (resolved_to_primary h und wad isonum Hsd Hisonum iso3 data iso3).
  - rewrite (Hrec iso3 data Hdata).
    by apply (resolved_to_primary h und wad isonum Hsd Hisonum iso3 data iso3).
  - assert (is_patched h und isonum (iso3, data) = true ↔
            h data !! "number" ≠ h undata !! "number" ∨
            h data !! "name" ≠ Str.upper <$> h undata !! "name") as Hflag.
    { unfold is_patched. rewrite Hroute. simpl.
      rewrite (field_Some _ _ _ Hunum), (field_Some _ _ _ Hunm).
      rewrite (field_Some _ _ _ Hdnum), (field_Some _ _ _ Hdnm). simpl.
      rewrite orb_true_iff, !bool_decide_eq_true.
      split; (intros [H|H]; [left|right]; congruence). }
    rewrite Hpat, <- Hflag. split.
    + intros [(k & Hk & Hp)|(k & Hk & _)].
      * assert (k = iso3) as ->; [|done].
        eapply values_key_unique; [|exact Hk|exact Hdata].
        pose proof (sd_fresh _ _ _ Hsd) as Hf.
        by apply NoDup_app in Hf as (_ & _ & ?).
      * exfalso. apply dict_get_elem_of in Hk.
        apply (und_wad_apart und wad (sd_fresh _ _ _ Hsd) data data); [|
          |done]; apply elem_of_values; by eauto.
    + intros Hp. left. by exists iso3.
Qed.

Section SourceDataMore.
Context {U : Str.Upper}.
Variables (h : heap) (und wad isonum : dict loc).
Hypothesis Hsd : source_data h und wad.

Lemma resolved_iso3 k l :
  (k, l) ∈ wad →
  blended_record h und isonum (k, l) !! "iso3"
    = Some (resolved_key h und isonum (k, l)).
Proof.
  intros Hkl. unfold blended_record, resolved_key.
  destruct (iso3_keyed_elem _ _ _ _ (sd_wad _ _ _ Hsd) Hkl) as (Hiso3 & _).
  destruct (route_of h und isonum (k, l)); simpl.
  - by rewrite !lookup_insert_ne.
  - by rewrite lookup_insert_ne, lookup_insert_eq.
  - done.
Qed.

End SourceDataMore.

(** The second loop, run over distinct keys of records that are objects of
    their own: every record it inserts gets an empty [iso2] and its own name
    uppercased, once, and no other record is written. *)
Lemma blend_missing_records {U : Str.Upper} und missing :
  ∀ st h' blend patched,
  NoDup missing →
  (∀ k1 k2 l, dict_get k1 und = Some l → dict_get k2 und = Some l → k1 = k2) →
  blend_missing und missing st = (h', Ret (blend, patched)) →
  (∀ l, (∀ k, k ∈ missing → dict_get k und ≠ Some l) → h' l = bs_heap st l) ∧
  (∀ k l, k ∈ missing → dict_get k und = Some l →
     ∃ nm, bs_heap st l !! "name" = Some nm ∧
           h' l = <["name" := Str.upper nm]> (<["iso2" := ""]> (bs_heap st l))).
Proof.
  induction missing as [|k missing IH]; intros st h' blend patched Hnd Hinj;
    cbn [blend_missing].
  - intros [= <- <- <-]. split; [done|]. by intros k l ?%elem_of_nil.
  - apply NoDup_cons in Hnd as [Hk Hnd].
    destruct (dict_get k und) as [data|] eqn:Hdata; [|done].
    destruct (_ !! "name") as [nm|] eqn:Hnm; [|done].
    rewrite store_field_other in Hnm by done.
    intros Hrun. destruct (IH _ _ _ _ Hnd Hinj Hrun) as [Hout Hins].
    simpl in Hout, Hins.
    assert (∀ k', k' ∈ missing → dict_get k' und ≠ Some data) as Hfresh.
    { intros k' Hk' Hl'. apply Hk. by rewrite (Hinj k k' data). }
    split.
    + intros l Hl. rewrite Hout by (intros k' Hk'; apply Hl; by right).
      assert (l ≠ data) as Hne.
      { intros ->. by apply (Hl k); [left|]. }
      by rewrite !store_other.
    + intros k' l [->|Hk']%elem_of_cons Hl.
      * assert (l = data) as -> by congruence. exists nm. split; [done|].
        by rewrite (Hout data Hfresh), !store_same.
      * destruct (Hins k' l Hk' Hl) as (nm' & Hnm' & Heq).
        assert (l ≠ data) as Hne.
        { intros ->. by apply (Hfresh k'). }
        rewrite !store_other in Heq, Hnm' by done.
        by exists nm'.
Qed.

(** A primary record whose ISO3 no broad record ended up under is inserted
    as it is, but for its [iso2], set to the empty string, and its name,
    uppercased. *)
Lemma blend_un_wad_inserted {U : Str.Upper} h und wad isonum h' blend patched
    k l :
  source_data h und wad →
  reindex h und "number" = Ret isonum →
  blend_un_wad h und wad = (h', Ret (blend, patched)) →
  dict_get k und = Some l →
  settled h und isonum k wad (dict_get k wad) = None →
  ∃ nm, h l !! "name" = Some nm ∧
        h' l = <["name" := Str.upper nm]> (<["iso2" := ""]> (h l)).
Proof.
  intros [Hund_keys Hwad_keys Hfresh Hund Hwad] Hisonum Hrun Hl Hs.
  assert (Forall (fun l => is_Some (h l !! "number") ∧ is_Some (h l !! "name") ∧
                           is_Some (h l !! "iso3")) (values und)) as Hund_fields.
  { apply Forall_forall. intros l0 [k0 Hkl]%elem_of_values.
    destruct (iso3_keyed_elem _ _ _ _ Hund Hkl) as (? & ? & ?). by eauto. }
  assert (Forall (fun l => is_Some (h l !! "number") ∧ is_Some (h l !! "name"))
                 (values wad)) as Hwad_fields.
  { apply Forall_forall. intros l0 [k0 Hkl]%elem_of_values.
    destruct (iso3_keyed_elem _ _ _ _ Hwad Hkl) as (? & ? & ?). by eauto. }
  destruct (blend_loop_spec h und wad isonum Hisonum Hfresh Hwad_keys
              Hund_fields Hwad_fields) as (_ & Hrest & Hget & _).
  unfold blend_un_wad in Hrun. rewrite Hisonum in Hrun.
  set (st := fold_left (blend_item und isonum) wad (BlendState h wad [])) in *.
  assert (l ∈ values und) as Hl_in.
  { apply elem_of_values. exists k. by apply dict_get_elem_of. }
  assert (bs_heap st l = h l) as Hsame.
  { apply Hrest. intros Hin. by apply (und_wad_apart und wad Hfresh l l). }
  destruct (blend_missing_records und (missing_keys und (bs_newdata st)) st
              h' blend patched) as [_ Hins]; [| |exact Hrun|].
  - unfold missing_keys. apply NoDup_list_difference, NoDup_remove_dups.
  - intros k1 k2 l0 H1%dict_get_elem_of H2%dict_get_elem_of.
    apply (values_key_unique und k1 k2 l0); [|done..].
    by apply NoDup_app in Hfresh as (? & _ & _).
  - rewrite <- Hsame. apply (Hins k l); [|done].
    apply elem_of_missing_keys. split.
    + apply dict_get_is_Some. by eauto.
    + apply dict_get_None. by rewrite Hget.
Qed.

(** C3. Blender completeness: on data as the adapters deliver it, the Blender
    returns and every ISO3 key of the primary data set is a key of the
    blended dict. The record it holds there is one of three: the broad
    record of that ISO3, merged (the primary's number and uppercased name
    written over its own); a broad record of an ISO3 the primary data set
    lacks, adopted by its number (its [iso3] set to this key, its name to
    the primary's name uppercased, listed as patched); or the primary record
    itself, inserted as it is but for [iso2], set to the empty string, and
    the name, uppercased, and listed as patched. *)
Theorem blend_complete {U : Str.Upper} (h : heap) (und wad : dict loc) :
  source_data h und wad →
  ∃ h' blend patched,
    blend_un_wad h und wad = (h', Ret (blend, patched)) ∧
    ∀ iso3 undata, (iso3, undata) ∈ und →
      ∃ num nm l,
        h undata !! "number" = Some num ∧ h undata !! "name" = Some nm ∧
        dict_get iso3 blend = Some l ∧
        (((iso3, l) ∈ wad ∧
          h' l = <["name" := Str.upper nm]> (<["number" := num]> (h l))) ∨
         (∃ old, (old, l) ∈ wad ∧ (old ∉ keys und) ∧
                 h l !! "number" = Some num ∧
                 h' l = <["name" := Str.upper nm]> (<["iso3" := iso3]> (h l)) ∧
                 l ∈ patched) ∨
         (l = undata ∧ (iso3 ∉ keys wad) ∧
          h' l = <["name" := Str.upper nm]> (<["iso2" := ""]> (h undata)) ∧
          l ∈ patched)).
Proof.
  intros Hsd.
  destruct (blend_un_wad_spec h und wad Hsd)
    as (isonum & h' & blend & patched & Hisonum & Hrun & Hrec & _ & Hget & Hpat & _).
  exists h', blend, patched. split; [exact Hrun|].
  intros iso3 undata Hin.
  destruct (iso3_keyed_elem _ _ _ _ (sd_und _ _ _ Hsd) Hin)
    as (Hiso3 & [num Hnum] & [nm Hnm]).
  assert (dict_get iso3 und = Some undata) as Hund.
  { apply elem_of_dict_get; [apply Hsd|done]. }
  exists num, nm. rewrite Hget.
  destruct (settled h und isonum iso3 wad (dict_get iso3 wad)) as [l|] eqn:Hs.
  - exists l. split_and!; [done..|].
    destruct (settled_from_wad h und wad isonum iso3 l Hs) as (k & Hkl & Hrk).
    rewrite (Hrec k l Hkl).
    assert (is_patched h und isonum (k, l) = true → l ∈ patched) as Hp.
    { intros Hp. apply Hpat. left. by exists k. }
    unfold resolved_key in Hrk. unfold blended_record, is_patched in *.
    pose proof (route_of_inv h und isonum k l) as Hroute.
    destruct (route_of h und isonum (k, l)) as [ul|ul|]; simpl in Hrk.
    + subst k. assert (ul = undata) as -> by congruence.
      left. split; [done|]. unfold field. by rewrite Hnum, Hnm.
    + destruct Hroute as (Hnone & n & Hn & Hul).
      destruct (isonum_primary h und wad isonum Hsd Hisonum n ul Hul)
        as (kp & _ & Hkp & Hkp_iso3 & Hkp_num & _).
      unfold field in Hrk. rewrite Hkp_iso3 in Hrk. simpl in Hrk. subst kp.
      assert (ul = undata) as -> by congruence.
      right; left. exists k. split_and!.
      * done.
      * by apply dict_get_None.
      * congruence.
      * unfold field. by rewrite Hiso3, Hnm.
      * by apply Hp.
    + subst k. destruct Hroute as [Hnone _]. congruence.
  - exists undata. split_and!; [done..|]. right; right.
    destruct (blend_un_wad_inserted h und wad isonum h' blend patched
                iso3 undata Hsd Hisonum Hrun Hund Hs) as (nm' & Hnm' & Heq).
    assert (nm' = nm) as -> by congruence.
    split_and!; [done| |done|].
    + intros [l' Hl']%elem_of_keys.
      destruct (settled_is_Some h und isonum iso3 wad (dict_get iso3 wad))
        as [l0 Hl0]; [| |congruence].
      * intros [k1 l1] _ Hk1. simpl in Hk1. subst k1.
        unfold resolved_key. by rewrite (route_of_Merge _ _ _ _ _ _ Hund).
      * exists l'. apply elem_of_dict_get; [apply Hsd|done].
    + apply Hpat. right. by exists iso3.
Qed.

(** C5. After blending, every record of the blended dict is stored under its
    own [iso3]; no key occurs twice, so no two entries have the same
    [iso3]. *)
Theorem blend_keyed_by_iso3 {U : Str.Upper} (h : heap) (und wad : dict loc) :
  source_data h und wad →
  ∃ h' blend patched,
    blend_un_wad h und wad = (h', Ret (blend, patched)) ∧
    NoDup (keys blend) ∧
    (∀ k l, (k, l) ∈ blend → h' l !! "iso3" = Some k) ∧
    (∀ k1 l1 k2 l2, (k1, l1) ∈ blend → (k2, l2) ∈ blend →
       h' l1 !! "iso3" = h' l2 !! "iso3" → k1 = k2).
Proof.
  intros Hsd.
  destruct (blend_un_wad_spec h und wad Hsd)
    as (isonum & h' & blend & patched & Hisonum & Hrun & Hrec & Hund & Hget & _ & Hnd).
  exists h', blend, patched. split; [exact Hrun|]. split; [exact Hnd|].
  assert (∀ k l, (k, l) ∈ blend → h' l !! "iso3" = Some k) as Hkeyed.
  { intros k l Hkl%(elem_of_dict_get _ _ _ Hnd). rewrite Hget in Hkl.
    destruct (settled h und isonum k wad (dict_get k wad)) as [l'|] eqn:Hs.
    - injection Hkl as ->.
      destruct (settled_from_wad h und wad isonum k l Hs) as (k' & Hin & Hrk).
      rewrite (Hrec k' l Hin), (resolved_iso3 h und wad isonum Hsd k' l Hin).
      by rewrite Hrk.
    - apply dict_get_elem_of in Hkl.
      rewrite Hund; [|apply elem_of_values; by eauto|done..].
      by destruct (iso3_keyed_elem _ _ _ _ (sd_und _ _ _ Hsd) Hkl) as (? & _). }
  split; [exact Hkeyed|].
  intros k1 l1 k2 l2 H1%Hkeyed H2%Hkeyed. congruence.
Qed.

(** C7 (amended). Blender, numeric fallback: a broad record whose ISO3 key is
    absent from the primary data set and whose number is that of a primary
    record is, provided no broad record is keyed by the ISO3 of a primary
    record with that number and no other broad record absent from the
    primary data set has that number, blended under the ISO3 of a primary
    record with that number, with its [iso3] field set to that ISO3 and its
    name to that primary record's name uppercased; its old key is gone from
    the blended dict and the record is in the patched list. *)
Theorem blend_adopt_by_number {U : Str.Upper} (h : heap) (und wad : dict loc)
    (iso3 : string) (data : loc) :
  source_data h und wad →
  (iso3, data) ∈ wad → iso3 ∉ keys und →
  (∃ ul, ul ∈ values und ∧ h ul !! "number" = h data !! "number") →
  (∀ kp lp, (kp, lp) ∈ und → h lp !! "number" = h data !! "number" →
            kp ∉ keys wad) →
  (∀ k l, (k, l) ∈ wad → k ≠ iso3 → k ∉ keys und →
          h l !! "number" ≠ h data !! "number") →
  ∃ h' blend patched unkey undata,
    blend_un_wad h und wad = (h', Ret (blend, patched)) ∧
    (unkey, undata) ∈ und ∧
    h undata !! "number" = h data !! "number" ∧
    dict_get unkey blend = Some data ∧
    h' data !! "iso3" = Some unkey ∧
    h' data !! "name" = Str.upper <$> h undata !! "name" ∧
    dict_get iso3 blend = None ∧
    data ∈ patched.
Proof.
  intros Hsd Hdata Hiso3 (ul0 & Hul0 & Hnum0) Hfree Hsole.
  destruct (blend_un_wad_spec h und wad Hsd)
    as (isonum & h' & blend & patched & Hisonum & Hrun & Hrec & _ & Hget & Hpat & _).
  destruct (iso3_keyed_elem _ _ _ _ (sd_wad _ _ _ Hsd) Hdata)
    as (_ & [n Hn] & _).
  rewrite Hn in Hnum0.
  destruct (reindex_covers _ _ _ _ _ _ Hisonum Hul0 Hnum0) as [undata Hundata].
  destruct (isonum_primary h und wad isonum Hsd Hisonum n undata Hundata)
    as (unkey & Hin & Hunkey & Hun_iso3 & Hun_num & Hun_nm).
  assert (dict_get iso3 und = None) as Hnone by by apply dict_get_None.
  assert (route_of h und isonum (iso3, data) = Adopt undata) as Hroute.
  { unfold route_of. simpl. rewrite Hnone, Hn. simpl. by rewrite Hundata. }
  assert (resolved_key h und isonum (iso3, data) = unkey) as Hrk.
  { unfold resolved_key, field. by rewrite Hroute, Hun_iso3. }
  assert (unkey ∉ keys wad) as Hunkey_free.
  { apply (Hfree unkey undata); [done|congruence]. }
  assert (unkey ≠ iso3) as Hne.
  { intros ->. apply Hiso3. apply elem_of_keys. by eauto. }
  assert (∀ k l, (k, l) ∈ wad → k ≠ iso3 →
            (resolved_key h und isonum (k, l) ≠ unkey ∧ k ≠ unkey) ∧
            (resolved_key h und isonum (k, l) ≠ iso3 ∧ k ≠ iso3)) as Hothers.
  { intros k l Hkl Hk.
    assert (k ≠ unkey) as Hk'.
    { intros ->. apply Hunkey_free. apply elem_of_keys. by eauto. }
    unfold resolved_key. pose proof (route_of_inv h und isonum k l) as Hr.
    destruct (route_of h und isonum (k, l)) as [ul|ul|]; simpl; [done| |done].
    destruct Hr as (Hk_none & n' & Hn' & Hul).
    destruct (isonum_primary h und wad isonum Hsd Hisonum n' ul Hul)
      as (kp & Hkp_in & Hkp & Hkp_iso3 & Hkp_num & _).
    unfold field. rewrite Hkp_iso3. simpl. split_and!; [|done| |done].
    - intros ->. assert (ul = undata) as -> by congruence.
      apply (Hsole k l Hkl Hk); [by apply dict_get_None|congruence].
    - intros ->. apply Hiso3. apply elem_of_keys. by eauto. }
  apply list_elem_of_split in Hdata as (pre & post & Hwad).
  assert (∀ k l, (k, l) ∈ pre ++ post → (k, l) ∈ wad ∧ k ≠ iso3) as Hrest.
  { intros k l Hkl. split.
    - rewrite Hwad. apply elem_of_app in Hkl as [?|?];
        apply elem_of_app; [by left|by right; right].
    - pose proof (sd_wad_keys _ _ _ Hsd) as Hkeys. rewrite Hwad in Hkeys.
      unfold keys in Hkeys. rewrite fmap_app, fmap_cons in Hkeys. simpl in Hkeys.
      apply NoDup_app in Hkeys as (_ & Hdisj & [Hpost _]%NoDup_cons).
      intros ->. apply elem_of_app in Hkl as [Hkl|Hkl].
      + apply (Hdisj iso3); [|left]. apply (elem_of_keys pre). by eauto.
      + apply Hpost. apply (elem_of_keys post). by eauto. }
  assert (∀ K acc, (K = unkey ∨ K = iso3) →
            settled h und isonum K wad acc
            = settle h und isonum K acc (iso3, data)) as Hsettled.
  { intros K acc HK. rewrite Hwad.
    rewrite settled_app, settled_cons.
    rewrite (settled_inert _ _ _ _ pre), (settled_inert _ _ _ _ post); [done|..].
    - intros [k l] Hkl. destruct (Hrest k l) as [Hkl' Hk].
      { apply elem_of_app. by right. }
      destruct (Hothers k l Hkl' Hk) as [[? ?] [? ?]]. by destruct HK as [-> | ->].
    - intros [k l] Hkl. destruct (Hrest k l) as [Hkl' Hk].
      { apply elem_of_app. by left. }
      destruct (Hothers k l Hkl' Hk) as [[? ?] [? ?]]. by destruct HK as [-> | ->]. }
  assert ((iso3, data) ∈ wad) as Hdata.
  { rewrite Hwad. apply elem_of_app. right. left. }
  exists h', blend, patched, unkey, undata. split_and!.
  - exact Hrun.
  - exact Hin.
  - congruence.
  - rewrite Hget, Hsettled by by left. unfold settle.
    by rewrite decide_True.
  - rewrite (Hrec iso3 data Hdata), (resolved_iso3 h und wad isonum Hsd _ _ Hdata).
    by rewrite Hrk.
  - rewrite (Hrec iso3 data Hdata). unfold blended_record. rewrite Hroute.
    rewrite lookup_insert_eq. destruct Hun_nm as [nm Hnm].
    unfold field. by rewrite Hnm.
  - rewrite Hget, Hsettled by by right. unfold settle. rewrite Hrk.
    rewrite decide_False by done. by rewrite decide_True.
  - apply Hpat. left. exists iso3. split; [done|].
    unfold is_patched. by rewrite Hroute.
Qed.

(** C4 (amended). Blender, agreement: when the two data sets have the same
    records to blend (every primary ISO3 is a broad ISO3, and no broad
    record outside the primary data set has the number of a primary record)
    and, for every shared ISO3, the broad record has the primary's number
    and the primary's name uppercased, the patched list is empty. *)
Theorem blend_agreement {U : Str.Upper} (h : heap) (und wad : dict loc) :
  source_data h und wad →
  (∀ iso3 data undata, (iso3, data) ∈ wad → (iso3, undata) ∈ und →
     h data !! "number" = h undata !! "number" ∧
     h data !! "name" = Str.upper <$> h undata !! "name") →
  (∀ iso3, iso3 ∈ keys und → iso3 ∈ keys wad) →
  (∀ iso3 data ul, (iso3, data) ∈ wad → iso3 ∉ keys und → ul ∈ values und →
     h ul !! "number" ≠ h data !! "number") →
  ∃ h' blend, blend_un_wad h und wad = (h', Ret (blend, [])).
Proof.
  intros Hsd Hagree Hcover Hapart.
  destruct (blend_un_wad_spec h und wad Hsd)
    as (isonum & h' & blend & patched & Hisonum & Hrun & _ & _ & _ & Hpat & _).
  exists h', blend. rewrite Hrun. do 3 f_equal.
  destruct patched as [|l patched]; [done|]. exfalso.
  destruct (proj1 (Hpat l)) as [(k & Hkl & Hp)|(k & Hk & Hs)]; [left| |].
  - unfold is_patched in Hp. pose proof (route_of_inv h und isonum k l) as Hr.
    destruct (route_of h und isonum (k, l)) as [ul|ul|]; [| |done].
    + apply dict_get_elem_of in Hr.
      destruct (Hagree k l ul Hkl Hr) as [Hnum Hnm].
      destruct (iso3_keyed_elem _ _ _ _ (sd_und _ _ _ Hsd) Hr) as (_ & Hunum & Hunm).
      destruct (iso3_keyed_elem _ _ _ _ (sd_wad _ _ _ Hsd) Hkl) as (_ & Hdnum & Hdnm).
      rewrite (field_Some _ _ _ Hunum) in Hnum.
      rewrite (field_Some _ _ _ Hunm) in Hnm.
      rewrite (field_Some _ _ _ Hdnum) in Hnum.
      rewrite (field_Some _ _ _ Hdnm) in Hnm. simpl in *.
      injection Hnum as Hnum. injection Hnm as Hnm. simpl in Hp.
      apply orb_true_iff in Hp as [Hp|Hp]; by apply bool_decide_eq_true in Hp.
    + destruct Hr as (Hnone & n & Hn & Hul).
      destruct (reindex_lookup _ _ _ _ _ _ Hisonum Hul) as [Hul_in Hul_n].
      apply (Hapart k l ul Hkl); [by apply dict_get_None|done|congruence].
  - assert (k ∈ keys wad) as [l' Hl']%elem_of_keys.
    { apply Hcover. apply dict_get_is_Some. by eauto. }
    destruct (settled_is_Some h und isonum k wad (dict_get k wad)) as [l0 Hl0].
    + intros [k1 l1] Hin Hk1. simpl in Hk1. subst k1.
      unfold resolved_key. by rewrite (route_of_Merge _ _ _ _ _ _ Hk).
    + exists l'. apply elem_of_dict_get; [apply Hsd|done].
    + congruence.
Qed.

(** ** The filter of [make_dataset], on what the Blender returns *)

Lemma blend_missing_keys {U : Str.Upper} und missing : ∀ st h' blend patched,
  blend_missing und missing st = (h', Ret (blend, patched)) →
  NoDup (keys (bs_newdata st)) → NoDup (keys blend).
Proof.
  induction missing as [|k missing IH]; intros st h' blend patched; simpl.
  - by intros [= <- <- <-].
  - destruct (dict_get k und) as [data|]; [|done].
    destruct (_ !! "name") as [nm|]; [|done].
    intros Hrun Hnd. apply (IH _ _ _ _ Hrun). simpl.
    by apply NoDup_keys_dict_set.
Qed.

Lemma blend_un_wad_keys {U : Str.Upper} h und wad h' blend patched :
  blend_un_wad h und wad = (h', Ret (blend, patched)) →
  NoDup (keys wad) → NoDup (keys blend).
Proof.
  unfold blend_un_wad. destruct (reindex h und "number") as [isonum|]; [|done].
  intros Hrun Hnd. apply (blend_missing_keys _ _ _ _ _ _ Hrun).
  by apply blend_loop_keys.
Qed.

(** C9. Filter: when the Blender and the Code Augmenter have returned,
    [make_dataset] with the ignore flag set returns too (the filter raises
    nothing), and what it returns holds exactly the blended entries whose
    [idc] is present and not the empty string: every entry left has a
    non-empty [idc]. *)
Theorem make_dataset_ignore {U : Str.Upper} (h h1 h2 : heap)
    (und wad blend : dict loc) (country_codes : dict (list string)) (patched : list loc) :
  NoDup (keys wad) →
  blend_un_wad h und wad = (h1, Ret (blend, patched)) →
  map_numbers h1 blend country_codes = (h2, blend, Ret tt) →
  ∃ final,
    make_dataset h und wad country_codes true = (h2, Ret (final, patched)) ∧
    (∀ iso3 l, dict_get iso3 final = Some l →
       ∃ idc, h2 l !! "idc" = Some idc ∧ idc ≠ "") ∧
    (∀ iso3 l, dict_get iso3 final = Some l ↔
       dict_get iso3 blend = Some l ∧ default "" (h2 l !! "idc") ≠ "").
Proof.
  intros Hnd Hblend Hmap.
  pose proof (blend_un_wad_keys _ _ _ _ _ _ Hblend Hnd) as Hkeys.
  destruct (drop_no_idc_spec h2 (keys blend) blend Hkeys) as (final & Hdrop & Hget);
    [done|].
  assert (∀ iso3 l, dict_get iso3 final = Some l ↔
            dict_get iso3 blend = Some l ∧ default "" (h2 l !! "idc") ≠ "")
    as Hfinal.
  { intros iso3 l. rewrite Hget.
    destruct (dict_get iso3 blend) as [l'|] eqn:Hl'; [|by split; [|intros []]].
    case_decide as Hd.
    - split; [done|]. intros [[= ->] ?]. by destruct Hd.
    - split; [intros [= ->]|by intros []]. split; [done|].
      intros Hidc. apply Hd. split; [|done]. apply dict_get_is_Some. by eauto. }
  exists final. split_and!.
  - unfold make_dataset. by rewrite Hblend, Hmap, Hdrop.
  - intros iso3 l [_ Hidc]%Hfinal.
    destruct (h2 l !! "idc") as [idc|]; [|done]. by exists idc.
  - exact Hfinal.
Qed.

(** ** Runs on the test data *)

(** The tables are run with the case mapping [latin1]. *)
Section Runs.
#[local] Existing Instance latin1.

Lemma upper_latin1_names :
  Str.upper_latin1 "Côte d'Ivoire" = "CÔTE D'IVOIRE" ∧
  Str.upper_latin1 "Saint-Barthélemy" = "SAINT-BARTHÉLEMY" ∧
  Str.upper_latin1 "Romania" = "ROMANIA".
Proof. split_and!; reflexivity. Qed.

Lemma abc_source_data : source_data abc_heap [("ABC", 0%nat)] [("ABC", 1%nat)].
Proof. split; compute_done. Defined.

Lemma ex_source_data : source_data ex_heap ex_und ex_wad.
Proof. split; compute_done. Defined.

Lemma blend_shared_iso3_witness :
  ∃ h' blend patched,
    blend_un_wad abc_heap [("ABC", 0%nat)] [("ABC", 1%nat)]
      = (h', Ret (blend, patched)) ∧
    (∃ l, dict_get "ABC" blend = Some l ∧
          h' l !! "number" = Some "004" ∧ h' l !! "name" = Some "FOO") ∧
    1%nat ∈ patched.
Proof.
  destruct (blend_shared_iso3 abc_heap [("ABC", 0%nat)] [("ABC", 1%nat)]
              "ABC" 1%nat 0%nat abc_source_data)
    as (h' & blend & patched & Hrun & Hblend & _ & _ & Hpat).
  - left.
  - left.
  - exists h', blend, patched. split; [exact Hrun|]. split; [exact Hblend|].
    apply Hpat. left. vm_compute. discriminate.
Defined.

Lemma blend_complete_witness :
  ∃ h' blend patched,
    blend_un_wad ex_heap ex_und ex_wad = (h', Ret (blend, patched)) ∧
    is_Some (dict_get "ABC" blend) ∧ is_Some (dict_get "ROU" blend) ∧
    is_Some (dict_get "SSD" blend).
Proof.
  destruct (blend_complete ex_heap ex_und ex_wad ex_source_data)
    as (h' & blend & patched & Hrun & Hkeys).
  exists h', blend, patched. split; [exact Hrun|].
  split_and!.
  - destruct (Hkeys "ABC" 0%nat) as (num & nm & l & _ & _ & -> & _);
      [compute_done|by eexists].
  - destruct (Hkeys "ROU" 2%nat) as (num & nm & l & _ & _ & -> & _);
      [compute_done|by eexists].
  - destruct (Hkeys "SSD" 4%nat) as (num & nm & l & _ & _ & -> & _);
      [compute_done|by eexists].
Defined.

Lemma blend_agreement_witness :
  ∃ h' blend,
    blend_un_wad agree_heap [("CIV", 0%nat)] [("CIV", 1%nat)]
      = (h', Ret (blend, [])).
Proof.
  apply blend_agreement.
  - split; compute_done.
  - intros iso3 data undata [[= -> ->]|[]%elem_of_nil]%elem_of_cons
                            [[= ->]|[]%elem_of_nil]%elem_of_cons.
    split; reflexivity.
  - intros iso3 Hin. exact Hin.
  - intros iso3 data ul [[= -> ->]|[]%elem_of_nil]%elem_of_cons Hout.
    destruct Hout. left.
Defined.

(** C4, as stated, fails: two data sets that agree on number and name for
    their one shared ISO3 still give a patched record when the common name
    is not in upper case, and a primary record the broad data set lacks is
    always patched. *)
Lemma blend_agreement_counterexample :
  (same_heap 1%nat !! "number" = same_heap 0%nat !! "number" ∧
   same_heap 1%nat !! "name" = same_heap 0%nat !! "name" ∧
   (blend_un_wad same_heap [("ABC", 0%nat)] [("ABC", 1%nat)]).2
     = Ret ([("ABC", 1%nat)], [1%nat])) ∧
  (blend_un_wad same_heap [("ABC", 0%nat)] []).2
     = Ret ([("ABC", 0%nat)], [0%nat]).
Proof. split_and!; by vm_compute. Qed.

Lemma blend_keyed_by_iso3_witness :
  ∃ h' blend patched,
    blend_un_wad ex_heap ex_und ex_wad = (h', Ret (blend, patched)) ∧
    blend = [("ABC", 1); ("TWN", 5); ("ROU", 3); ("SSD", 4)]%nat ∧
    h' 1%nat !! "iso3" = Some "ABC" ∧ h' 5%nat !! "iso3" = Some "TWN" ∧
    h' 3%nat !! "iso3" = Some "ROU" ∧ h' 4%nat !! "iso3" = Some "SSD".
Proof.
  destruct (blend_keyed_by_iso3 ex_heap ex_und ex_wad ex_source_data)
    as (h' & blend & patched & Hrun & _ & Hkeyed & _).
  assert (blend = [("ABC", 1); ("TWN", 5); ("ROU", 3); ("SSD", 4)]%nat) as Hblend.
  { assert ((blend_un_wad ex_heap ex_und ex_wad).2
              = Ret ([("ABC", 1); ("TWN", 5); ("ROU", 3); ("SSD", 4)]%nat,
                     [1; 3; 4]%nat)) as Hres by (vm_compute; reflexivity).
    rewrite Hrun in Hres. cbn [snd] in Hres. by injection Hres as -> _. }
  exists h', blend, patched. split; [exact Hrun|]. split; [exact Hblend|].
  split_and!; apply Hkeyed; rewrite Hblend; compute_done.
Defined.

Lemma blend_adopt_by_number_witness :
  ∃ h' blend patched,
    blend_un_wad ex_heap ex_und ex_wad = (h', Ret (blend, patched)) ∧
    dict_get "ROU" blend = Some 3%nat ∧
    h' 3%nat !! "iso3" = Some "ROU" ∧ h' 3%nat !! "name" = Some "ROMANIA" ∧
    dict_get "ROM" blend = None ∧ 3%nat ∈ patched.
Proof.
  destruct (blend_adopt_by_number ex_heap ex_und ex_wad "ROM" 3%nat
              ex_source_data)
    as (h' & blend & patched & unkey & undata & Hrun & Hin & Hnum & Hget &
        Hiso3 & Hname & Hold & Hpat).
  - compute_done.
  - compute_done.
  - exists 2%nat. split; compute_done.
  - intros kp lp Hkp Hn.
    assert ((kp, lp) = ("ROU", 2%nat)) as [= -> ->]; [|compute_done].
    unfold ex_und in Hkp.
    repeat (apply elem_of_cons in Hkp as [[= -> ->]|Hkp]); try done.
    by apply elem_of_nil in Hkp.
  - intros k l Hkl Hk Hout.
    unfold ex_wad in Hkl.
    repeat (apply elem_of_cons in Hkl as [[= -> ->]|Hkl]);
      first [done | by apply elem_of_nil in Hkl | compute_done].
  - assert ((unkey, undata) = ("ROU", 2%nat)) as [= -> ->].
    { unfold ex_und in Hin.
      repeat (apply elem_of_cons in Hin as [[= -> ->]|Hin]); try done.
      by apply elem_of_nil in Hin. }
    by exists h', blend, patched.
Defined.

(** C7, as stated, fails when two broad records fall back on the same
    primary record: both are re-keyed to its ISO3 and the one iterated last
    overwrites the other, which is then in the blended dict under no key,
    whichever the iteration order. *)
Lemma blend_adopt_by_number_counterexample :
  (blend_un_wad clash_heap [("ROU", 0%nat)] [("ROM", 1%nat); ("ROX", 2%nat)]).2
    = Ret ([("ROU", 2%nat)], [1%nat; 2%nat]) ∧
  (blend_un_wad clash_heap [("ROU", 0%nat)] [("ROX", 2%nat); ("ROM", 1%nat)]).2
    = Ret ([("ROU", 1%nat)], [2%nat; 1%nat]).
Proof. split; by vm_compute. Qed.

Lemma reindex_distinct_field_witness :
  ∃ d, reindex ex_heap ex_und "number" = Ret d ∧ length d = 3%nat ∧
       dict_get "004" d = Some 0%nat ∧ dict_get "642" d = Some 2%nat ∧
       dict_get "728" d = Some 4%nat.
Proof.
  destruct (reindex_distinct_field ex_heap ex_und "number")
    as (d & Hd & Hlen & Hget).
  - compute_done.
  - compute_done.
  - exists d. split; [exact Hd|]. split; [exact Hlen|].
    split_and!.
    + destruct (Hget "ABC" 0%nat) as (v & Hv & Hl); [compute_done|].
      vm_compute in Hv. by injection Hv as <-.
    + destruct (Hget "ROU" 2%nat) as (v & Hv & Hl); [compute_done|].
      vm_compute in Hv. by injection Hv as <-.
    + destruct (Hget "SSD" 4%nat) as (v & Hv & Hl); [compute_done|].
      vm_compute in Hv. by injection Hv as <-.
Defined.

Lemma map_numbers_miss_witness :
  possible_countries
    [("SAINT MARTIN (DUTCH)", 0); ("SAINT MARTIN (FRENCH)", 1)]%nat
    "SAINT MARTIN"
    = ["SAINT MARTIN (DUTCH)"; "SAINT MARTIN (FRENCH)"] ∧
  map_numbers saint_heap saint_data [("SAINT MARTIN", ["+590"])]
    = (saint_heap, saint_data, Ret tt).
Proof.
  split; [reflexivity|].
  destruct (map_numbers_miss saint_heap saint_data
              [("SAINT MARTIN (DUTCH)", 0); ("SAINT MARTIN (FRENCH)", 1)]%nat
              [] [] "SAINT MARTIN" ["+590"]) as [_ Hsame].
  - reflexivity.
  - reflexivity.
  - vm_compute. discriminate.
  - simpl app in Hsame. rewrite Hsame. reflexivity.
Defined.

(** C6, as stated, fails on its own example: the incoming name
    [SAINT MARTIN] is the name of the first of the two records, so the exact
    lookup succeeds and that record is augmented. *)
Lemma map_numbers_miss_counterexample :
  martin_heap 0%nat !! "idc" = None ∧
  (map_numbers martin_heap saint_data [("SAINT MARTIN", ["+590"])]).2 = Ret tt ∧
  (map_numbers martin_heap saint_data [("SAINT MARTIN", ["+590"])]).1.1 0%nat
    !! "idc" = Some "590".
Proof. split_and!; by vm_compute. Qed.

Lemma map_numbers_frame_witness :
  ∃ h', map_numbers ex_heap ex_wad ex_codes = (h', ex_wad, Ret tt) ∧
        h' 3%nat !! "idc" = Some "40" ∧
        h' 3%nat !! "iso3" = Some "ROM" ∧ h' 3%nat !! "iso2" = Some "RO" ∧
        h' 3%nat !! "number" = Some "642" ∧ h' 3%nat !! "name" = Some "ROMANIA".
Proof.
  exists (map_numbers ex_heap ex_wad ex_codes).1.1.
  destruct (map_numbers_frame ex_heap (map_numbers ex_heap ex_wad ex_codes).1.1
              ex_wad ex_wad ex_codes (Ret tt)) as (_ & _ & Hfields).
  - vm_compute. reflexivity.
  - split; [vm_compute; reflexivity|]. split; [vm_compute; reflexivity|].
    destruct (Hfields 3%nat) as (H1 & H2 & H3 & H4).
    split_and!; [exact H1|exact H2|exact H3|exact H4].
Defined.

Lemma make_dataset_ignore_witness :
  ∃ h' final patched,
    make_dataset ex_heap ex_und ex_wad ex_codes true
      = (h', Ret (final, patched)) ∧
    final = [("TWN", 5); ("ROU", 3)]%nat ∧
    h' 5%nat !! "idc" = Some "886" ∧ h' 3%nat !! "idc" = Some "40".
Proof.
  set (b := blend_un_wad ex_heap ex_und ex_wad).
  set (blend := [("ABC", 1); ("TWN", 5); ("ROU", 3); ("SSD", 4)]%nat).
  set (m := map_numbers b.1 blend ex_codes).
  destruct (make_dataset_ignore ex_heap b.1 m.1.1 ex_und ex_wad blend ex_codes
              [1; 3; 4]%nat) as (final & Hrun & Hidc & Hfinal).
  - compute_done.
  - vm_compute. reflexivity.
  - vm_compute. reflexivity.
  - exists m.1.1, final, [1; 3; 4]%nat. split; [exact Hrun|].
    split; [|split; by vm_compute].
    assert ((make_dataset ex_heap ex_und ex_wad ex_codes true).2
              = Ret ([("TWN", 5); ("ROU", 3)]%nat, [1; 3; 4]%nat)) as Hres
      by (vm_compute; reflexivity).
    rewrite Hrun in Hres. cbn [snd] in Hres. by injection Hres as ->.
Defined.

End Runs.

(** * Further properties of the code *)

(** ** Reindexer *)






(** X2. Reindexer, missing field: [reindex] raises [KeyError] exactly when
    some record lacks the field, and returns otherwise; it raises nothing
    else. *)
Theorem reindex_KeyError (h : heap) (dataset : dict loc) (key : string) :
  (reindex h dataset key = Raise KeyError ↔
     Exists (fun l => h l !! key = None) (values dataset)) ∧
  ((∃ d, reindex h dataset key = Ret d) ↔
     Forall (fun l => is_Some (h l !! key)) (values dataset)).
Proof.
  assert (∀ vals d0,
            (reindex_loop h vals key d0 = Raise KeyError ∧
             Exists (fun l => h l !! key = None) vals) ∨
            ((∃ d, reindex_loop h vals key d0 = Ret d) ∧
             Forall (fun l => is_Some (h l !! key)) vals)) as Hcases.
  { induction vals as [|l vals IH]; intros d0; simpl.
    - right. split; [by eexists|constructor].
    - destruct (h l !! key) as [w|] eqn:E.
      + destruct (IH (dict_set w l d0)) as [[-> Hex]|[[d ->] Hall]].
        * left. split; [done|]. by right.
        * right. split; [by eexists|]. constructor; [by rewrite E|done].
      + left. split; [done|]. by left. }
  unfold reindex. destruct (Hcases (values dataset) []) as [[Hr Hex]|[[d Hr] Hall]].
  - split; [by split|]. split.
    + intros [d Hd]. congruence.
    + intros Hall. exfalso. apply Exists_exists in Hex as (l & Hl & Hnone).
      rewrite Forall_forall in Hall. destruct (Hall l Hl) as [w Hw]. congruence.
  - split; [|by split; [|eexists]]. split; [congruence|].
    intros Hex. exfalso. apply Exists_exists in Hex as (l & Hl & Hnone).
    rewrite Forall_forall in Hall. destruct (Hall l Hl) as [w Hw]. congruence.
Qed.

Lemma reindex_KeyError_witness :
  reindex dup_heap [("ROU", 0); ("NWH", 2)]%nat "number" = Raise KeyError.
Proof.
  apply (proj1 (reindex_KeyError dup_heap [("ROU", 0); ("NWH", 2)]%nat "number")).
  right. left. reflexivity.
Defined.

(** ** Number splitting *)

Lemma Forall_or_Exists_second (xs : list string) :
  Forall (fun y => is_Some (second_token y)) xs ∨
  Exists (fun y => second_token y = None) xs.
Proof.
  induction xs as [|x xs [IH|IH]].
  - left. constructor.
  - destruct (second_token x) as [t|] eqn:E.
    + left. constructor; [by rewrite E|done].
    + right. by left.
  - right. by right.
Qed.

(** X3. [_split_numbers] raises [IndexError] exactly on the empty list and on
    a list whose first entry has a second token while a later entry has
    none or the list has more than four entries; on every other list it
    returns, and it never raises [KeyError]. *)
Theorem split_numbers_IndexError (numbers : list string) :
  (_split_numbers numbers = Raise IndexError ↔
     numbers = [] ∨
     ∃ x xs, numbers = x :: xs ∧ is_Some (second_token x) ∧
             (Exists (fun y => second_token y = None) xs ∨
              (4 < length numbers)%nat)) ∧
  _split_numbers numbers ≠ Raise KeyError.
Proof.
  assert (NoDup regions) as Hnd by compute_done.
  destruct numbers as [|x xs].
  { split; [|done]. split; [by left|done]. }
  destruct (tokens_first x) as [more Hx].
  destruct (second_token x) as [t|] eqn:Hsecond.
  - destruct (Forall_or_Exists_second xs) as [Hall|Hex].
    + assert (Forall (fun y => is_Some (second_token y)) (x :: xs)) as Hall'.
      { constructor; [by rewrite Hsecond|done]. }
      destruct (decide (4 < length (x :: xs))%nat) as [Hlen|Hlen].
      * rewrite (split_numbers_overflow _ Hall' Hlen).
        split; [|done]. split; [|done]. intros _. right.
        exists x, xs. split_and!; [done|by eauto|by right].
      * destruct (pop1_all_second _ Hall') as (rcs & Hrcs & Hl & _).
        destruct (assign_regions_lookup rcs regions (<["idc" := first_token x]> ∅) Hnd)
          as (r & Hr & _); [unfold regions; simpl in *; lia|].
        assert (_split_numbers (x :: xs) = Ret r) as ->.
        { unfold _split_numbers. rewrite Hrcs. csimpl. rewrite Hx.
          unfold second_token in Hsecond. rewrite Hx in Hsecond.
          by destruct more. }
        split; [|done]. split; [done|].
        intros [?|(x' & xs' & [= <- <-] & _ & [Hex|?])]; [done| |done].
        exfalso. apply Exists_exists in Hex as (y & Hy & Hnone).
        rewrite Forall_forall in Hall. destruct (Hall y Hy) as [? ?]. congruence.
    + assert (_split_numbers (x :: xs) = Raise IndexError) as ->.
      { unfold _split_numbers.
        rewrite (pop1_all_ragged (x :: xs)) by by right.
        csimpl. rewrite Hx.
        unfold second_token in Hsecond. rewrite Hx in Hsecond.
        by destruct more. }
      split; [|done]. split; [|done]. intros _. right.
      exists x, xs. split_and!; [done|by eauto|by left].
  - assert (_split_numbers (x :: xs) = Ret {[ "idc" := first_token x ]}) as ->.
    { unfold second_token in Hsecond. unfold _split_numbers. csimpl.
      rewrite Hx in *. destruct more; [|done]. simpl. by rewrite insert_empty. }
    split; [|done]. split; [done|].
    intros [?|(x' & xs' & [= <- <-] & [? ?] & _)]; [done|congruence].
Qed.

Lemma split_numbers_IndexError_witness :
  _split_numbers ["+1 242"; "+1"] = Raise IndexError.
Proof.
  apply (proj1 (split_numbers_IndexError ["+1 242"; "+1"])).
  right. exists "+1 242", ["+1"]. split; [reflexivity|].
  split; [by eexists|]. left. left. reflexivity.
Defined.

(** ** Code Augmenter *)

Lemma byname_named h data byname name :
  reindex h data "name" = Ret byname →
  (∃ l, l ∈ values data ∧ h l !! "name" = Some name) →
  ∃ l, dict_get name byname = Some l ∧ l ∈ values data ∧
       h l !! "name" = Some name.
Proof.
  intros Hbyname (l0 & Hl0 & Hname).
  destruct (reindex_covers _ _ _ _ _ _ Hbyname Hl0 Hname) as [l Hl].
  exists l. split; [done|]. by eapply reindex_lookup.
Qed.

Lemma update_same l r h : update l r h l = r ∪ h l.
Proof. unfold update. by case_decide. Qed.

Lemma update_other l l' r h : l' ≠ l → update l r h l' = h l'.
Proof. unfold update. intros. by case_decide. Qed.

Lemma split_numbers_vatican :
  _split_numbers ["+39 066"] = Ret (<["region_a" := "066"]> (<["idc" := "39"]> ∅)).
Proof. reflexivity. Qed.

(** X4. The Vatican override: when the blended data has a record named
    [HOLY SEE (VATICAN CITY STATE)], an incoming pair whose name is that
    name or an alias of it gives such a record the dialing code 39 and the
    region 066 whatever numbers came with it (also none at all), raises
    nothing and touches no other record. *)
Theorem map_numbers_vatican (h : heap) (data : dict loc) (country : string)
    (numbers : list string) :
  Forall (fun l => is_Some (h l !! "name")) (values data) →
  canonical_name country = "HOLY SEE (VATICAN CITY STATE)" →
  (∃ l, l ∈ values data ∧
        h l !! "name" = Some "HOLY SEE (VATICAN CITY STATE)") →
  ∃ h' l, map_numbers h data [(country, numbers)] = (h', data, Ret tt) ∧
          l ∈ values data ∧
          h l !! "name" = Some "HOLY SEE (VATICAN CITY STATE)" ∧
          h' l !! "idc" = Some "39" ∧ h' l !! "region_a" = Some "066" ∧
          ∀ l', l' ≠ l → h' l' = h l'.
Proof.
  intros Hnamed Hcanon Hvat.
  destruct (reindex_loop_total h "name" (values data) [] Hnamed) as [byname Hbyname].
  fold (reindex h data "name") in Hbyname.
  destruct (byname_named _ _ _ _ Hbyname Hvat) as (l & Hl & Hin & Hname).
  exists (update l (<["region_a" := "066"]> (<["idc" := "39"]> ∅)) h), l.
  split_and!; try done.
  - unfold map_numbers. rewrite Hbyname. cbn [map_numbers_loop].
    unfold map_numbers_item. rewrite Hcanon, Hl.
    rewrite decide_True by done. by rewrite split_numbers_vatican.
  - rewrite update_same. by apply lookup_union_Some_l.
  - rewrite update_same. by apply lookup_union_Some_l.
  - intros l' Hl'. by rewrite update_other.
Qed.

(** X5. A dialing list that cannot be split aborts the run: when the
    incoming name (not the Vatican's) has an exact match and
    [_split_numbers] raises on its numbers, as on an empty list,
    [map_numbers] raises the same exception at that pair; the records
    augmented by the pairs before it stay augmented, the matched record is
    left as it was and the pairs after it are not looked at. *)
Theorem map_numbers_aborts (h h1 : heap) (data : dict loc)
    (pre post : dict (list string)) (country : string)
    (numbers : list string) (e : exn) :
  map_numbers h data pre = (h1, data, Ret tt) →
  canonical_name country ≠ "HOLY SEE (VATICAN CITY STATE)" →
  (∃ l, l ∈ values data ∧ h l !! "name" = Some (canonical_name country)) →
  _split_numbers numbers = Raise e →
  map_numbers h data (pre ++ (country, numbers) :: post) = (h1, data, Raise e).
Proof.
  unfold map_numbers. intros Hpre Hcanon Hmatch Hsplit.
  destruct (reindex h data "name") as [byname|e'] eqn:Hbyname; [|done].
  destruct (byname_named _ _ _ _ Hbyname Hmatch) as (l & Hl & _).
  rewrite map_numbers_loop_app.
  destruct (map_numbers_loop byname h pre) as [h1' [[]|e']]; [|done].
  injection Hpre as ->. cbn [map_numbers_loop].
  unfold map_numbers_item. rewrite Hl, decide_False by done.
  by rewrite Hsplit.
Qed.

(** X6. Exact match: when the blended names are pairwise distinct and the
    incoming name (not the Vatican's), after alias substitution, is the name
    of a record, [map_numbers] on that one pair updates that record with
    what [_split_numbers] returns (the new fields win, every field it does
    not return, a region set earlier included, stays) and leaves every
    other record as it was. *)
Theorem map_numbers_exact (h : heap) (data : dict loc) (country : string)
    (numbers : list string) (k : string) (l : loc) (r : record) :
  Forall (fun l => is_Some (h l !! "name")) (values data) →
  NoDup ((fun l => h l !! "name") <$> values data) →
  (k, l) ∈ data → h l !! "name" = Some (canonical_name country) →
  canonical_name country ≠ "HOLY SEE (VATICAN CITY STATE)" →
  _split_numbers numbers = Ret r →
  ∃ h', map_numbers h data [(country, numbers)] = (h', data, Ret tt) ∧
        h' l = r ∪ h l ∧ ∀ l', l' ≠ l → h' l' = h l'.
Proof.
  intros Hnamed Hdistinct Hkl Hname Hcanon Hsplit.
  destruct (reindex_loop_total h "name" (values data) [] Hnamed) as [byname Hbyname].
  assert (dict_get (canonical_name country) byname = Some l) as Hl.
  { rewrite (reindex_loop_get _ _ _ _ _ (canonical_name country) Hbyname).
    apply pick_distinct; [done| |done]. apply elem_of_values. by eauto. }
  fold (reindex h data "name") in Hbyname.
  exists (update l r h). split_and!.
  - unfold map_numbers. rewrite Hbyname. cbn [map_numbers_loop].
    unfold map_numbers_item. rewrite Hl, decide_False by done.
    by rewrite Hsplit.
  - apply update_same.
  - intros l' Hl'. by apply update_other.
Qed.

Lemma map_numbers_vatican_witness :
  ∃ h' l, map_numbers vat_heap vat_data
            [("VATICAN CITY STATE (HOLY SEE)", ["+379"; "+39 06 698"])]
          = (h', vat_data, Ret tt) ∧
          h' l !! "idc" = Some "39" ∧ h' l !! "region_a" = Some "066".
Proof.
  destruct (map_numbers_vatican vat_heap vat_data
              "VATICAN CITY STATE (HOLY SEE)" ["+379"; "+39 06 698"])
    as (h' & l & Hrun & _ & _ & Hidc & Hreg & _).
  - compute_done.
  - reflexivity.
  - exists 0%nat. split; compute_done.
  - by exists h', l.
Defined.

Lemma map_numbers_aborts_witness :
  map_numbers vat_heap vat_data [("ATLANTIS", ["+0"]); ("FRANCE", []); ("X", [])]
    = (vat_heap, vat_data, Raise IndexError).
Proof.
  apply (map_numbers_aborts vat_heap vat_heap vat_data [("ATLANTIS", ["+0"])]
           [("X", [])] "FRANCE" [] IndexError).
  - reflexivity.
  - compute_done.
  - exists 1%nat. split; compute_done.
  - reflexivity.
Defined.

Lemma map_numbers_exact_witness :
  ∃ h', map_numbers vat_heap vat_data [("FRANCE", ["+33"])]
          = (h', vat_data, Ret tt) ∧
        h' 1%nat !! "idc" = Some "33" ∧ h' 1%nat !! "region_a" = Some "9" ∧
        h' 0%nat = vat_heap 0%nat.
Proof.
  destruct (map_numbers_exact vat_heap vat_data "FRANCE" ["+33"] "FRA" 1%nat
              (<["idc" := "33"]> ∅)) as (h' & Hrun & Hl & Hother).
  - compute_done.
  - compute_done.
  - compute_done.
  - reflexivity.
  - compute_done.
  - reflexivity.
  - exists h'. split; [exact Hrun|]. rewrite Hl. split_and!.
    + reflexivity.
    + reflexivity.
    + by apply Hother.
Defined.

(** ** Blender *)

(** X7. The audit trail is complete: on data as the adapters deliver it,
    every entry of the blended dict whose record is not in the patched list
    is an entry of the broad data set, under the same key, and its record is
    exactly as the broad source had it. *)
Theorem blend_unpatched_unchanged {U : Str.Upper} (h : heap)
    (und wad : dict loc) :
  source_data h und wad →
  ∃ h' blend patched,
    blend_un_wad h und wad = (h', Ret (blend, patched)) ∧
    ∀ k l, (k, l) ∈ blend → l ∉ patched → (k, l) ∈ wad ∧ h' l = h l.
Proof.
  intros Hsd.
  destruct (blend_un_wad_spec h und wad Hsd)
    as (isonum & h' & blend & patched & Hisonum & Hrun & Hrec & _ & Hget & Hpat & Hnd).
  exists h', blend, patched. split; [exact Hrun|].
  intros k l Hkl%(elem_of_dict_get _ _ _ Hnd) Hl. rewrite Hget in Hkl.
  destruct (settled h und isonum k wad (dict_get k wad)) as [l'|] eqn:Hs.
  2:{ destruct Hl. apply Hpat. right. by exists k. }
  injection Hkl as ->.
  destruct (settled_from_wad h und wad isonum k l Hs) as (k' & Hin & Hrk).
  assert (is_patched h und isonum (k', l) = false) as Hflag.
  { destruct (is_patched h und isonum (k', l)) eqn:E; [|done].
    destruct Hl. apply Hpat. left. by exists k'. }
  rewrite (Hrec k' l Hin).
  destruct (iso3_keyed_elem _ _ _ _ (sd_wad _ _ _ Hsd) Hin) as (_ & Hnum & Hnm).
  unfold resolved_key, is_patched, blended_record in *.
  destruct (route_of h und isonum (k', l)) as [ul|ul|]; simpl in *; [|done|].
  - subst k'. split; [done|].
    apply orb_false_iff in Hflag as [Hf1 Hf2].
    apply bool_decide_eq_false in Hf1, Hf2.
    apply dec_stable in Hf1, Hf2. rewrite <- Hf1, <- Hf2.
    rewrite (insert_id (h l) "number") by by apply field_Some.
    by rewrite insert_id by by apply field_Some.
  - by subst k'.
Qed.

(** X8. No primary correspondence: on data as the adapters deliver it, a
    broad record whose ISO3 key is not a primary key and whose number is the
    number of no primary record stays in the blended dict under its own
    key, exactly as it was, and is not patched. *)
Theorem blend_keep {U : Str.Upper} (h : heap) (und wad : dict loc)
    (iso3 : string) (data : loc) :
  source_data h und wad →
  (iso3, data) ∈ wad → iso3 ∉ keys und →
  (∀ ul, ul ∈ values und → h ul !! "number" ≠ h data !! "number") →
  ∃ h' blend patched,
    blend_un_wad h und wad = (h', Ret (blend, patched)) ∧
    dict_get iso3 blend = Some data ∧ h' data = h data ∧ data ∉ patched.
Proof.
  intros Hsd Hdata Hiso3 Hnumber.
  destruct (blend_un_wad_spec h und wad Hsd)
    as (isonum & h' & blend & patched & Hisonum & Hrun & Hrec & _ & Hget & Hpat & _).
  exists h', blend, patched. split; [exact Hrun|].
  assert (dict_get iso3 und = None) as Hnone by by apply dict_get_None.
  assert (route_of h und isonum (iso3, data) = Keep) as Hroute.
  { pose proof (route_of_inv h und isonum iso3 data) as Hr.
    destruct (route_of h und isonum (iso3, data)) as [ul|ul|]; [congruence| |done].
    destruct Hr as (_ & n & Hn & Hul).
    destruct (reindex_lookup _ _ _ _ _ _ Hisonum Hul) as [Hul_in Hul_n].
    destruct (Hnumber ul Hul_in). congruence. }
  assert (∀ k l, (k, l) ∈ wad → k ≠ iso3 →
            resolved_key h und isonum (k, l) ≠ iso3 ∧ k ≠ iso3) as Hothers.
  { intros k l Hkl Hk. split; [|done].
    unfold resolved_key. pose proof (route_of_inv h und isonum k l) as Hr.
    destruct (route_of h und isonum (k, l)) as [ul|ul|]; simpl; [done| |done].
    destruct Hr as (_ & n & _ & Hul).
    destruct (isonum_primary h und wad isonum Hsd Hisonum n ul Hul)
      as (kp & Hkp_in & _ & Hkp_iso3 & _).
    unfold field. rewrite Hkp_iso3. simpl. intros ->.
    apply Hiso3. apply elem_of_keys. by eauto. }
  pose proof Hdata as Hdata'.
  apply list_elem_of_split in Hdata' as (pre & post & Hwad).
  assert (∀ k l, (k, l) ∈ pre ++ post → (k, l) ∈ wad ∧ k ≠ iso3) as Hrest.
  { intros k l Hkl. split.
    - rewrite Hwad. apply elem_of_app in Hkl as [?|?];
        apply elem_of_app; [by left|by right; right].
    - pose proof (sd_wad_keys _ _ _ Hsd) as Hkeys. rewrite Hwad in Hkeys.
      unfold keys in Hkeys. rewrite fmap_app, fmap_cons in Hkeys. simpl in Hkeys.
      apply NoDup_app in Hkeys as (_ & Hdisj & [Hpost _]%NoDup_cons).
      intros ->. apply elem_of_app in Hkl as [Hkl|Hkl].
      + apply (Hdisj iso3); [|left]. apply (elem_of_keys pre). by eauto.
      + apply Hpost. apply (elem_of_keys post). by eauto. }
  split_and!.
  - rewrite Hget. rewrite Hwad at 1.
    rewrite settled_app, settled_cons.
    rewrite (settled_inert _ _ _ _ post).
    2:{ intros [k l] Hkl. destruct (Hrest k l) as [Hkl' Hk].
        { apply elem_of_app. by right. }
        by apply Hothers. }
    unfold settle at 1. unfold resolved_key. rewrite Hroute. simpl.
    by rewrite decide_True.
  - rewrite (Hrec iso3 data Hdata). unfold blended_record. by rewrite Hroute.
  - intros [(k & Hk & Hp)|(k & Hk & _)]%Hpat.
    + assert (k = iso3) as ->.
      { eapply (values_key_unique wad); [|exact Hk|exact Hdata].
        pose proof (sd_fresh _ _ _ Hsd) as Hf.
        by apply NoDup_app in Hf as (_ & _ & ?). }
      unfold is_patched in Hp. by rewrite Hroute in Hp.
    + apply dict_get_elem_of in Hk.
      apply (und_wad_apart und wad (sd_fresh _ _ _ Hsd) data data); [| |done];
        apply elem_of_values; by eauto.
Qed.

Section BlenderRuns.
#[local] Existing Instance latin1.

Lemma blend_unpatched_unchanged_witness :
  ∃ h' blend patched,
    blend_un_wad ex_heap ex_und ex_wad = (h', Ret (blend, patched)) ∧
    patched = [1; 3; 4]%nat ∧
    ("TWN", 5%nat) ∈ ex_wad ∧ h' 5%nat = ex_heap 5%nat.
Proof.
  destruct (blend_unpatched_unchanged ex_heap ex_und ex_wad ex_source_data)
    as (h' & blend & patched & Hrun & Hkept).
  assert ((blend_un_wad ex_heap ex_und ex_wad).2
            = Ret ([("ABC", 1); ("TWN", 5); ("ROU", 3); ("SSD", 4)]%nat,
                   [1; 3; 4]%nat)) as Hres by (vm_compute; reflexivity).
  rewrite Hrun in Hres. cbn [snd] in Hres.
  injection Hres as Hblend Hpatched.
  exists h', blend, patched. split; [exact Hrun|]. split; [exact Hpatched|].
  apply Hkept; rewrite ?Hblend, ?Hpatched; compute_done.
Defined.

Lemma blend_keep_witness :
  ∃ h' blend patched,
    blend_un_wad ex_heap ex_und ex_wad = (h', Ret (blend, patched)) ∧
    dict_get "TWN" blend = Some 5%nat ∧ h' 5%nat = ex_heap 5%nat ∧
    5%nat ∉ patched.
Proof.
  apply (blend_keep ex_heap ex_und ex_wad "TWN" 5%nat ex_source_data).
  - compute_done.
  - compute_done.
  - intros ul Hul. unfold ex_und, values in Hul. simpl in Hul.
    repeat (apply elem_of_cons in Hul as [->|Hul]);
      first [by apply elem_of_nil in Hul | compute_done].
Defined.

End BlenderRuns.
